(** * QSPI NOR-flash block driver (N25Q128A behind the STM32 QUADSPI
      controller): a shallow embedding of the driver and the properties
      its specification states.

    The driver is one C file.  It calls four groups of code whose
    text is not part of the sources at hand:

    - the kernel headers ([err.h], [pow2.h], the [IS_ALIGNED] macro),
    - the vendor HAL ([HAL_QSPI_*], [HAL_StatusTypeDef], the [QSPI_*]
      mode constants),
    - the part header [n25q128a.h] (opcodes, geometry, register bits),
    - the block-I/O library ([bio_trim_range], [bio_initialize_bdev]...).

    Numeric constants of those headers are fields of the class
    [Platform]; every definition of the driver is parametric in it.
    The HAL is an oracle: each call is logged and answers with the next
    status the world holds. *)

From Stdlib Require Import String ZArith List Lia Bool.
Import ListNotations.
Local Open Scope Z_scope.

(** ** Machine integers

    The target is a 32-bit ARM core: [size_t], [uint32_t], [bnum_t] and
    [uint] are 32-bit unsigned, [ssize_t] and [status_t] are 32-bit
    signed, [off_t] is 64-bit signed, [uint8_t] is a byte. *)

Definition u8 (z : Z) : Z := z mod 2 ^ 8.
Definition u32 (z : Z) : Z := z mod 2 ^ 32.
Definition s32 (z : Z) : Z := (z + 2 ^ 31) mod 2 ^ 32 - 2 ^ 31.
Definition s64 (z : Z) : Z := (z + 2 ^ 63) mod 2 ^ 64 - 2 ^ 63.

Definition HAL_StatusTypeDef := Z.
Definition status_t := Z.

(** ** Constants supplied by headers outside the driver *)

Class Platform := {
  (* err.h *)
  NO_ERROR : status_t;
  ERR_GENERIC : status_t;
  ERR_INVALID_ARGS : status_t;
  ERR_TIMED_OUT : status_t;
  ERR_NOT_IMPLEMENTED : status_t;
  ERR_BUSY : status_t;
  (* HAL status enumeration and default timeout *)
  HAL_OK : HAL_StatusTypeDef;
  HAL_ERROR : HAL_StatusTypeDef;
  HAL_BUSY : HAL_StatusTypeDef;
  HAL_TIMEOUT : HAL_StatusTypeDef;
  HAL_QPSI_TIMEOUT_DEFAULT_VALUE : Z;
  (* n25q128a.h: geometry *)
  N25Q128A_FLASH_SIZE : Z;
  N25Q128A_SECTOR_SIZE : Z;
  N25Q128A_SUBSECTOR_SIZE : Z;
  N25Q128A_PAGE_SIZE : Z;
  N25Q128A_DUMMY_CYCLES_READ_QUAD : Z;
  (* n25q128a.h: opcodes *)
  RESET_ENABLE_CMD : Z;
  RESET_MEMORY_CMD : Z;
  QUAD_INOUT_FAST_READ_CMD : Z;
  WRITE_ENABLE_CMD : Z;
  READ_STATUS_REG_CMD : Z;
  READ_VOL_CFG_REG_CMD : Z;
  WRITE_VOL_CFG_REG_CMD : Z;
  EXT_QUAD_IN_FAST_PROG_CMD : Z;
  SUBSECTOR_ERASE_CMD : Z;
  SECTOR_ERASE_CMD : Z;
  BULK_ERASE_CMD : Z;
  (* n25q128a.h: register bits *)
  N25Q128A_SR_WIP : Z;
  N25Q128A_SR_WREN : Z;
  N25Q128A_VCR_NB_DUMMY : Z;
  (* pow2.h and the CMSIS bit helpers *)
  log2_uint : Z -> Z;
  POSITION_VAL : Z -> Z
}.

(** What the proofs use of those constants.  Errors are negative and
    success is zero (the kernel convention the driver relies on when it
    tests [bytes_written < 0]); the labels of a [switch] are distinct;
    the geometry is positive, fits a signed 32-bit byte count with one
    subsector to spare, and the page size is a power of two. *)

Class PlatformOk (P : Platform) : Prop := {
  no_error_zero : NO_ERROR = 0;
  err_generic_neg : ERR_GENERIC < 0;
  err_timed_out_neg : ERR_TIMED_OUT < 0;
  err_busy_neg : ERR_BUSY < 0;
  outcomes_distinct :
    ERR_GENERIC <> ERR_BUSY /\ ERR_GENERIC <> ERR_TIMED_OUT /\
    ERR_BUSY <> ERR_TIMED_OUT;
  hal_codes_distinct :
    HAL_OK <> HAL_ERROR /\ HAL_OK <> HAL_BUSY /\ HAL_OK <> HAL_TIMEOUT /\
    HAL_ERROR <> HAL_BUSY /\ HAL_ERROR <> HAL_TIMEOUT /\
    HAL_BUSY <> HAL_TIMEOUT;
  erase_cmds_distinct :
    SUBSECTOR_ERASE_CMD <> SECTOR_ERASE_CMD /\
    SUBSECTOR_ERASE_CMD <> BULK_ERASE_CMD /\
    SECTOR_ERASE_CMD <> BULK_ERASE_CMD;
  page_size_pos : 0 < N25Q128A_PAGE_SIZE;
  page_size_pow2 : N25Q128A_PAGE_SIZE = 2 ^ Z.log2 N25Q128A_PAGE_SIZE;
  subsector_size_pos : 0 < N25Q128A_SUBSECTOR_SIZE;
  sector_size_pos : 0 < N25Q128A_SECTOR_SIZE;
  flash_size_fits : N25Q128A_FLASH_SIZE + N25Q128A_SUBSECTOR_SIZE < 2 ^ 31
}.

(** ** HAL data structures

    The [QSPI_*] mode macros are register bit patterns; only their
    identity matters here, so each family is an enumeration holding the
    members the driver mentions. *)

Inductive instruction_mode := QSPI_INSTRUCTION_1_LINE.
Inductive address_mode :=
  QSPI_ADDRESS_NONE | QSPI_ADDRESS_1_LINE | QSPI_ADDRESS_4_LINES.
Inductive address_size := QSPI_ADDRESS_24_BITS.
Inductive alternate_bytes_mode := QSPI_ALTERNATE_BYTES_NONE.
Inductive data_mode := QSPI_DATA_NONE | QSPI_DATA_1_LINE | QSPI_DATA_4_LINES.
Inductive ddr_mode := QSPI_DDR_MODE_DISABLE.
Inductive ddr_hold := QSPI_DDR_HHC_ANALOG_DELAY.
Inductive sioo_mode := QSPI_SIOO_INST_EVERY_CMD.
Inductive match_mode := QSPI_MATCH_MODE_AND.
Inductive automatic_stop := QSPI_AUTOMATIC_STOP_ENABLE.
Inductive sample_shifting := QSPI_SAMPLE_SHIFTING_HALFCYCLE.
Inductive cs_high_time := QSPI_CS_HIGH_TIME_2_CYCLE.
Inductive clock_mode := QSPI_CLOCK_MODE_0.
Inductive flash_id := QSPI_FLASH_ID_1.
Inductive dual_flash := QSPI_DUALFLASH_DISABLE.

(** A command descriptor.  A field the C code leaves unassigned in a
    local struct is indeterminate: it is [None]. *)

Record QSPI_CommandTypeDef := {
  Instruction : Z;
  Address : option Z;
  AddressSize : option address_size;
  DummyCycles : Z;
  InstructionMode : instruction_mode;
  AddressMode : address_mode;
  AlternateByteMode : alternate_bytes_mode;
  DataMode : data_mode;
  NbData : option Z;
  DdrMode : ddr_mode;
  DdrHoldHalfCycle : ddr_hold;
  SIOOMode : sioo_mode
}.

Definition set_Instruction (c : QSPI_CommandTypeDef) (i : Z) :=
  {| Instruction := i; Address := Address c; AddressSize := AddressSize c;
     DummyCycles := DummyCycles c; InstructionMode := InstructionMode c;
     AddressMode := AddressMode c; AlternateByteMode := AlternateByteMode c;
     DataMode := DataMode c; NbData := NbData c; DdrMode := DdrMode c;
     DdrHoldHalfCycle := DdrHoldHalfCycle c; SIOOMode := SIOOMode c |}.

Definition set_DataMode (c : QSPI_CommandTypeDef) (d : data_mode) :=
  {| Instruction := Instruction c; Address := Address c;
     AddressSize := AddressSize c; DummyCycles := DummyCycles c;
     InstructionMode := InstructionMode c; AddressMode := AddressMode c;
     AlternateByteMode := AlternateByteMode c; DataMode := d;
     NbData := NbData c; DdrMode := DdrMode c;
     DdrHoldHalfCycle := DdrHoldHalfCycle c; SIOOMode := SIOOMode c |}.

Record QSPI_AutoPollingTypeDef := {
  Match : Z;
  Mask : Z;
  Interval : Z;
  StatusBytesSize : Z;
  MatchMode : match_mode;
  AutomaticStop : automatic_stop
}.

Record QSPI_InitTypeDef := {
  ClockPrescaler : Z;
  FifoThreshold : Z;
  SampleShifting : sample_shifting;
  FlashSize : Z;
  ChipSelectHighTime : cs_high_time;
  ClockMode : clock_mode;
  FlashID : flash_id;
  DualFlash : dual_flash
}.

(** ** Block-I/O descriptor ([lib/bio.h]) *)

Record bio_erase_geometry_info_t := {
  start : Z;
  size : Z;
  erase_size : Z;
  erase_shift : Z
}.

Inductive entry_point :=
  | spiflash_bdev_read_hook
  | spiflash_bdev_read_block_hook
  | spiflash_bdev_write_block_hook
  | spiflash_bdev_erase_hook
  | spiflash_ioctl_hook.

Record bdev_t := {
  name : string;
  block_size : Z;
  block_shift : Z;
  block_count : Z;
  total_size : Z;
  geometry_count : Z;
  geometry : list bio_erase_geometry_info_t;
  erase_byte : Z;
  read : option entry_point;
  read_block : option entry_point;
  write_block : option entry_point;
  erase : option entry_point;
  ioctl : option entry_point
}.

(** The range-trimming helpers of the block-I/O library. *)

Class BlockIO := {
  bio_trim_range : bdev_t -> Z -> Z -> Z;
  bio_trim_block_range : bdev_t -> Z -> Z -> Z
}.

(** ** The world: hardware oracle and log *)

Inductive event_id := cmd_event | rx_event | tx_event.

Inductive hal_call :=
  | hw_DeInit
  | hw_Init (init : QSPI_InitTypeDef)
  | hw_Command (cmd : QSPI_CommandTypeDef) (timeout : Z)
  | hw_Command_IT (cmd : QSPI_CommandTypeDef)
  | hw_AutoPolling (cmd : QSPI_CommandTypeDef)
      (cfg : QSPI_AutoPollingTypeDef) (timeout : Z)
  | hw_AutoPolling_IT (cmd : QSPI_CommandTypeDef)
      (cfg : QSPI_AutoPollingTypeDef)
  | hw_Transmit (reg : Z) (timeout : Z)
  | hw_Receive (timeout : Z)
  | hw_Transmit_IT (buf : Z)
  | hw_Receive_IT (buf : Z).

Inductive kernel_call :=
  | k_event_init (e : event_id)
  | k_event_wait (e : event_id)
  | k_mutex_init
  | k_mutex_acquire
  | k_mutex_release
  | k_bio_register_device (dev : bdev_t).

Inductive event :=
  | Hal (c : hal_call)
  | Kernel (k : kernel_call).

(** [hal_status n] is the status the [n]-th HAL call of the run answers
    with, [vcr_byte] the byte a blocking receive stores, [acquire_status]
    what [mutex_acquire] reports.  [issued] counts the HAL calls made so
    far and [trace] lists every call, oldest first. *)

Record world := {
  hal_status : nat -> HAL_StatusTypeDef;
  vcr_byte : Z;
  acquire_status : status_t;
  issued : nat;
  trace : list event
}.

Definition record_event (e : event) (w : world) : world :=
  {| hal_status := hal_status w;
     vcr_byte := vcr_byte w;
     acquire_status := acquire_status w;
     issued := match e with Hal _ => S (issued w) | Kernel _ => issued w end;
     trace := trace w ++ [e] |}.

Definition record_events (es : list event) (w : world) : world :=
  fold_left (fun w e => record_event e w) es w.

(** The hardware transactions of a log, in order. *)

Fixpoint transactions (t : list event) : list hal_call :=
  match t with
  | [] => []
  | Hal c :: t' => c :: transactions t'
  | Kernel _ :: t' => transactions t'
  end.

(** ** A state monad over the world *)

Definition M (A : Type) : Type := world -> A * world.

Definition ret {A : Type} (a : A) : M A := fun w => (a, w).

Definition bind {A B : Type} (m : M A) (k : A -> M B) : M B :=
  fun w => let (a, w') := m w in k a w'.

Notation "x <- m ;; k" := (bind m (fun x => k))
  (at level 61, m at next level, right associativity).
Notation "m ;;; k" := (bind m (fun _ => k))
  (at level 61, right associativity).

Definition hal (c : hal_call) : M HAL_StatusTypeDef :=
  fun w => (hal_status w (issued w), record_event (Hal c) w).

Definition kernel (k : kernel_call) : M unit :=
  fun w => (tt, record_event (Kernel k) w).

Definition mutex_acquire : M status_t :=
  fun w => (acquire_status w, record_event (Kernel k_mutex_acquire) w).

Definition mutex_release : M unit := kernel k_mutex_release.
Definition event_wait (e : event_id) : M unit := kernel (k_event_wait e).

(** Modelled from the spec: the macro [IS_ALIGNED] is not among the
    sources.  The specification reads the test as "address is a
    multiple of the page size"; the kernel macro tests the low bits,
    [!(a & (b - 1))], and [IS_ALIGNED_multiple] below shows that the two
    agree when [b] is a power of two. *)
Definition IS_ALIGNED (a b : Z) : bool := Z.land a (b - 1) =? 0.

Section Driver.

Context {P : Platform} {B : BlockIO}.

(** ** Status translator *)

Definition hal_error_to_status (hal_status : HAL_StatusTypeDef) : status_t :=
  if hal_status =? HAL_OK then NO_ERROR
  else if hal_status =? HAL_ERROR then ERR_GENERIC
  else if hal_status =? HAL_BUSY then ERR_BUSY
  else if hal_status =? HAL_TIMEOUT then ERR_TIMED_OUT
  else ERR_GENERIC.

(** ** Protocol primitives

    Every function of the driver receives the same handle,
    [&qspi_handle]; the parameter is left out. *)

Definition qspi_cmd (s_command : QSPI_CommandTypeDef) : M HAL_StatusTypeDef :=
  result <- hal (hw_Command_IT s_command) ;;
  event_wait cmd_event ;;;
  ret result.

Definition qspi_tx (buf : Z) : M HAL_StatusTypeDef :=
  result <- hal (hw_Transmit_IT buf) ;;
  event_wait tx_event ;;;
  ret result.

Definition qspi_rx (buf : Z) : M HAL_StatusTypeDef :=
  result <- hal (hw_Receive_IT buf) ;;
  event_wait rx_event ;;;
  ret result.

Definition write_enable_command : QSPI_CommandTypeDef :=
  {| InstructionMode := QSPI_INSTRUCTION_1_LINE;
     Instruction := WRITE_ENABLE_CMD;
     AddressMode := QSPI_ADDRESS_NONE;
     AlternateByteMode := QSPI_ALTERNATE_BYTES_NONE;
     DataMode := QSPI_DATA_NONE;
     DummyCycles := 0;
     DdrMode := QSPI_DDR_MODE_DISABLE;
     DdrHoldHalfCycle := QSPI_DDR_HHC_ANALOG_DELAY;
     SIOOMode := QSPI_SIOO_INST_EVERY_CMD;
     Address := None; AddressSize := None; NbData := None |}.

Definition qspi_write_enable_unsafe : M status_t :=
  let s_command := write_enable_command in
  status <- hal (hw_Command s_command HAL_QPSI_TIMEOUT_DEFAULT_VALUE) ;;
  if negb (status =? HAL_OK) then ret (hal_error_to_status status) else
  let s_config :=
    {| Match := N25Q128A_SR_WREN;
       Mask := N25Q128A_SR_WREN;
       MatchMode := QSPI_MATCH_MODE_AND;
       StatusBytesSize := 1;
       Interval := 16;
       AutomaticStop := QSPI_AUTOMATIC_STOP_ENABLE |} in
  let s_command := set_Instruction s_command READ_STATUS_REG_CMD in
  let s_command := set_DataMode s_command QSPI_DATA_1_LINE in
  status <- hal (hw_AutoPolling s_command s_config
                   HAL_QPSI_TIMEOUT_DEFAULT_VALUE) ;;
  if negb (status =? HAL_OK) then ret (hal_error_to_status status) else
  ret NO_ERROR.

Definition qspi_auto_polling_mem_ready_unsafe : M status_t :=
  let s_command :=
    {| InstructionMode := QSPI_INSTRUCTION_1_LINE;
       Instruction := READ_STATUS_REG_CMD;
       AddressMode := QSPI_ADDRESS_NONE;
       AlternateByteMode := QSPI_ALTERNATE_BYTES_NONE;
       DataMode := QSPI_DATA_1_LINE;
       DummyCycles := 0;
       DdrMode := QSPI_DDR_MODE_DISABLE;
       DdrHoldHalfCycle := QSPI_DDR_HHC_ANALOG_DELAY;
       SIOOMode := QSPI_SIOO_INST_EVERY_CMD;
       Address := None; AddressSize := None; NbData := None |} in
  let s_config :=
    {| Match := 0;
       Mask := N25Q128A_SR_WIP;
       MatchMode := QSPI_MATCH_MODE_AND;
       StatusBytesSize := 1;
       Interval := 16;
       AutomaticStop := QSPI_AUTOMATIC_STOP_ENABLE |} in
  status <- hal (hw_AutoPolling_IT s_command s_config) ;;
  if negb (status =? HAL_OK) then ret (hal_error_to_status status) else
  ret NO_ERROR.

(** ** Program engine *)

Definition qspi_write_page_unsafe (addr : Z) (data : Z) : M Z :=
  if negb (IS_ALIGNED addr N25Q128A_PAGE_SIZE) then ret ERR_INVALID_ARGS else
  let s_command :=
    {| InstructionMode := QSPI_INSTRUCTION_1_LINE;
       Instruction := EXT_QUAD_IN_FAST_PROG_CMD;
       AddressMode := QSPI_ADDRESS_4_LINES;
       AddressSize := Some QSPI_ADDRESS_24_BITS;
       AlternateByteMode := QSPI_ALTERNATE_BYTES_NONE;
       DataMode := QSPI_DATA_4_LINES;
       DummyCycles := 0;
       DdrMode := QSPI_DDR_MODE_DISABLE;
       DdrHoldHalfCycle := QSPI_DDR_HHC_ANALOG_DELAY;
       SIOOMode := QSPI_SIOO_INST_EVERY_CMD;
       Address := Some addr;
       NbData := Some N25Q128A_PAGE_SIZE |} in
  write_enable_result <- qspi_write_enable_unsafe ;;
  if negb (write_enable_result =? NO_ERROR) then ret write_enable_result else
  status <- hal (hw_Command s_command HAL_QPSI_TIMEOUT_DEFAULT_VALUE) ;;
  if negb (status =? HAL_OK) then ret (hal_error_to_status status) else
  status <- qspi_tx data ;;
  if negb (status =? HAL_OK) then ret (hal_error_to_status status) else
  auto_polling_mem_ready_result <- qspi_auto_polling_mem_ready_unsafe ;;
  if negb (auto_polling_mem_ready_result =? NO_ERROR)
  then ret auto_polling_mem_ready_result else
  ret N25Q128A_PAGE_SIZE.

(** The loop of [spiflash_bdev_write_block]: [count] iterations unless
    a page fails.  [count] is unsigned, so the loop runs once per unit
    and the recursion is on its value. *)

Fixpoint write_block_loop (count : nat) (block buf total_bytes_written : Z)
  : M Z :=
  match count with
  | O => ret total_bytes_written
  | S count' =>
      bytes_written <-
        qspi_write_page_unsafe (u32 (block * N25Q128A_PAGE_SIZE)) buf ;;
      if bytes_written <? 0 then ret bytes_written
      else write_block_loop count' (u32 (block + 1))
             (buf + N25Q128A_PAGE_SIZE)
             (s32 (total_bytes_written + bytes_written))
  end.

Definition spiflash_bdev_write_block (device : bdev_t) (buf block count : Z)
  : M Z :=
  let count := bio_trim_block_range device block count in
  if count =? 0 then ret 0 else
  mutex_acquire ;;;
  total_bytes_written <- write_block_loop (Z.to_nat count) block buf 0 ;;
  mutex_release ;;;
  ret total_bytes_written.

(** ** Read engine *)

Definition spiflash_bdev_read (device : bdev_t) (buf offset len : Z) : M Z :=
  let len := bio_trim_range device offset len in
  if len =? 0 then ret 0 else
  let s_command :=
    {| InstructionMode := QSPI_INSTRUCTION_1_LINE;
       Instruction := QUAD_INOUT_FAST_READ_CMD;
       AddressMode := QSPI_ADDRESS_4_LINES;
       AddressSize := Some QSPI_ADDRESS_24_BITS;
       AlternateByteMode := QSPI_ALTERNATE_BYTES_NONE;
       DataMode := QSPI_DATA_4_LINES;
       DummyCycles := N25Q128A_DUMMY_CYCLES_READ_QUAD;
       DdrMode := QSPI_DDR_MODE_DISABLE;
       DdrHoldHalfCycle := QSPI_DDR_HHC_ANALOG_DELAY;
       SIOOMode := QSPI_SIOO_INST_EVERY_CMD;
       NbData := Some len;
       Address := Some (u32 offset) |} in
  let retcode := len in
  mutex_acquire ;;;
  status <- hal (hw_Command s_command HAL_QPSI_TIMEOUT_DEFAULT_VALUE) ;;
  if negb (status =? HAL_OK) then
    let retcode := u32 (hal_error_to_status status) in
    mutex_release ;;; ret (s32 retcode)
  else
  status <- qspi_rx buf ;;
  if negb (status =? HAL_OK) then
    let retcode := u32 (hal_error_to_status status) in
    mutex_release ;;; ret (s32 retcode)
  else
  mutex_release ;;; ret (s32 retcode).

Definition spiflash_bdev_read_block (device : bdev_t) (buf block count : Z)
  : M Z :=
  let count := bio_trim_block_range device block count in
  if count =? 0 then ret 0 else
  spiflash_bdev_read device buf
    (u32 (Z.shiftl block (block_shift device)))
    (u32 (Z.shiftl count (block_shift device))).

(** ** Erase engine *)

Definition qspi_erase (block_addr instruction : Z) : M Z :=
  if (instruction =? BULK_ERASE_CMD) && negb (block_addr =? 0)
  then ret ERR_INVALID_ARGS else
  let shape :=
    if instruction =? SUBSECTOR_ERASE_CMD
    then Some (N25Q128A_SUBSECTOR_SIZE, QSPI_ADDRESS_1_LINE)
    else if instruction =? SECTOR_ERASE_CMD
    then Some (N25Q128A_SECTOR_SIZE, QSPI_ADDRESS_1_LINE)
    else if instruction =? BULK_ERASE_CMD
    then Some (N25Q128A_FLASH_SIZE, QSPI_ADDRESS_NONE)
    else None in
  match shape with
  | None => ret ERR_INVALID_ARGS
  | Some (num_erased_bytes, erase_address_mode) =>
      let erase_cmd :=
        {| AddressMode := erase_address_mode;
           InstructionMode := QSPI_INSTRUCTION_1_LINE;
           AddressSize := Some QSPI_ADDRESS_24_BITS;
           Address := Some block_addr;
           AlternateByteMode := QSPI_ALTERNATE_BYTES_NONE;
           DataMode := QSPI_DATA_NONE;
           DummyCycles := 0;
           DdrMode := QSPI_DDR_MODE_DISABLE;
           DdrHoldHalfCycle := QSPI_DDR_HHC_ANALOG_DELAY;
           SIOOMode := QSPI_SIOO_INST_EVERY_CMD;
           Instruction := instruction;
           NbData := None |} in
      qspi_write_enable_result <- qspi_write_enable_unsafe ;;
      if negb (qspi_write_enable_result =? NO_ERROR)
      then ret qspi_write_enable_result else
      status <- qspi_cmd erase_cmd ;;
      if negb (status =? HAL_OK) then ret ERR_GENERIC else
      auto_polling_mem_ready_result <- qspi_auto_polling_mem_ready_unsafe ;;
      if negb (auto_polling_mem_ready_result =? NO_ERROR)
      then ret auto_polling_mem_ready_result else
      ret num_erased_bytes
  end.

Definition qspi_bulk_erase : M Z := qspi_erase 0 BULK_ERASE_CMD.

Definition qspi_erase_sector (block_addr : Z) : M Z :=
  qspi_erase block_addr SECTOR_ERASE_CMD.

Definition qspi_erase_subsector (block_addr : Z) : M Z :=
  qspi_erase block_addr SUBSECTOR_ERASE_CMD.

(** The two [while] loops of [spiflash_bdev_erase].  A loop either
    jumps to [finish] with the value to return or falls through with the
    running total and offset.  [fuel] bounds the iterations; [None]
    means the bound was reached before the loop ended. *)

Inductive loop_exit :=
  | Finish (total_erased : Z)
  | Fallthrough (total_erased offset : Z).

Fixpoint erase_sector_loop (fuel : nat) (len total_erased offset : Z)
  (w : world) : option (loop_exit * world) :=
  match fuel with
  | O => None
  | S fuel' =>
      if s32 (s32 len - total_erased) >=? N25Q128A_SECTOR_SIZE then
        let (erased, w1) := qspi_erase_sector (u32 offset) w in
        if erased <? 0 then Some (Finish erased, w1)
        else erase_sector_loop fuel' len (s32 (total_erased + erased))
               (s64 (offset + erased)) w1
      else Some (Fallthrough total_erased offset, w)
  end.

Fixpoint erase_subsector_loop (fuel : nat) (len total_erased offset : Z)
  (w : world) : option (loop_exit * world) :=
  match fuel with
  | O => None
  | S fuel' =>
      if total_erased <? s32 len then
        let (erased, w1) := qspi_erase_subsector (u32 offset) w in
        if erased <? 0 then Some (Finish erased, w1)
        else erase_subsector_loop fuel' len (s32 (total_erased + erased))
               (s64 (offset + erased)) w1
      else Some (Fallthrough total_erased offset, w)
  end.

Definition spiflash_bdev_erase (fuel : nat) (device : bdev_t) (offset len : Z)
  (w : world) : option (Z * world) :=
  let len := bio_trim_range device offset len in
  if len =? 0 then Some (0, w) else
  let total_erased := 0 in
  let (_, w) := mutex_acquire w in
  if (len =? N25Q128A_FLASH_SIZE) && (offset =? 0) then
    let (total_erased, w) := qspi_bulk_erase w in
    let (_, w) := mutex_release w in
    Some (total_erased, w)
  else
  match erase_sector_loop fuel len total_erased offset w with
  | None => None
  | Some (Finish total_erased, w) =>
      let (_, w) := mutex_release w in Some (total_erased, w)
  | Some (Fallthrough total_erased offset, w) =>
      match erase_subsector_loop fuel len total_erased offset w with
      | None => None
      | Some (Finish total_erased, w)
      | Some (Fallthrough total_erased _, w) =>
          let (_, w) := mutex_release w in Some (total_erased, w)
      end
  end.

Definition spiflash_ioctl (device : bdev_t) (request argp : Z) : M Z :=
  ret ERR_NOT_IMPLEMENTED.

(** ** Initialisation *)

Definition qspi_reset_memory_unsafe : M status_t :=
  let s_command :=
    {| InstructionMode := QSPI_INSTRUCTION_1_LINE;
       Instruction := RESET_ENABLE_CMD;
       AddressMode := QSPI_ADDRESS_NONE;
       AlternateByteMode := QSPI_ALTERNATE_BYTES_NONE;
       DataMode := QSPI_DATA_NONE;
       DummyCycles := 0;
       DdrMode := QSPI_DDR_MODE_DISABLE;
       DdrHoldHalfCycle := QSPI_DDR_HHC_ANALOG_DELAY;
       SIOOMode := QSPI_SIOO_INST_EVERY_CMD;
       Address := None; AddressSize := None; NbData := None |} in
  status <- qspi_cmd s_command ;;
  if negb (status =? HAL_OK) then ret (hal_error_to_status status) else
  let s_command := set_Instruction s_command RESET_MEMORY_CMD in
  status <- qspi_cmd s_command ;;
  if negb (status =? HAL_OK) then ret (hal_error_to_status status) else
  (* the status_t result is stored in the HAL status variable *)
  status <- qspi_auto_polling_mem_ready_unsafe ;;
  if negb (status =? NO_ERROR) then ret (hal_error_to_status status) else
  ret NO_ERROR.

Definition HAL_QSPI_Receive (timeout : Z) : M (HAL_StatusTypeDef * Z) :=
  fun w => let (status, w') := hal (hw_Receive timeout) w in
           ((status, vcr_byte w), w').

Definition MODIFY_REG (reg clearmask setmask : Z) : Z :=
  u8 (Z.lor (Z.land reg (Z.lnot clearmask)) setmask).

Definition qspi_dummy_cycles_cfg_unsafe : M status_t :=
  let s_command :=
    {| InstructionMode := QSPI_INSTRUCTION_1_LINE;
       Instruction := READ_VOL_CFG_REG_CMD;
       AddressMode := QSPI_ADDRESS_NONE;
       AlternateByteMode := QSPI_ALTERNATE_BYTES_NONE;
       DataMode := QSPI_DATA_1_LINE;
       DummyCycles := 0;
       NbData := Some 1;
       DdrMode := QSPI_DDR_MODE_DISABLE;
       DdrHoldHalfCycle := QSPI_DDR_HHC_ANALOG_DELAY;
       SIOOMode := QSPI_SIOO_INST_EVERY_CMD;
       Address := None; AddressSize := None |} in
  status <- hal (hw_Command s_command HAL_QPSI_TIMEOUT_DEFAULT_VALUE) ;;
  if negb (status =? HAL_OK) then ret (hal_error_to_status status) else
  received <- HAL_QSPI_Receive HAL_QPSI_TIMEOUT_DEFAULT_VALUE ;;
  let (status, reg) := received : HAL_StatusTypeDef * Z in
  if negb (status =? HAL_OK) then ret (hal_error_to_status status) else
  status <- qspi_write_enable_unsafe ;;
  if negb (status =? NO_ERROR) then ret status else
  let s_command := set_Instruction s_command WRITE_VOL_CFG_REG_CMD in
  let reg :=
    MODIFY_REG reg N25Q128A_VCR_NB_DUMMY
      (Z.shiftl N25Q128A_DUMMY_CYCLES_READ_QUAD
         (POSITION_VAL N25Q128A_VCR_NB_DUMMY)) in
  status <- hal (hw_Command s_command HAL_QPSI_TIMEOUT_DEFAULT_VALUE) ;;
  if negb (status =? HAL_OK) then ret (hal_error_to_status status) else
  status <- hal (hw_Transmit reg HAL_QPSI_TIMEOUT_DEFAULT_VALUE) ;;
  if negb (status =? HAL_OK) then ret (hal_error_to_status status) else
  ret NO_ERROR.

Definition device_name : string := "qspi-flash"%string.

(** Modelled from the spec: [bio_initialize_bdev] belongs to the
    block-I/O library, which is not among the sources.  The
    specification describes the registration record as name, block
    size, block count and erase geometry; the device extent the trimming
    helpers clamp to is block count times block size.  The hooks start
    unset and the fill byte at zero until the driver assigns them. *)
Definition bio_initialize_bdev (name : string) (block_size block_count : Z)
  (geometry_count : Z) (geometry : list bio_erase_geometry_info_t) : bdev_t :=
  {| name := name;
     block_size := block_size;
     block_shift := log2_uint block_size;
     block_count := block_count;
     total_size := block_count * block_size;
     geometry_count := geometry_count;
     geometry := geometry;
     erase_byte := 0;
     read := None; read_block := None; write_block := None;
     erase := None; ioctl := None |}.

(** The descriptor [qspi_flash_init] hands to [bio_register_device]. *)

Definition qspi_flash_device : bdev_t :=
  let geometry_info :=
    {| erase_size := log2_uint N25Q128A_SUBSECTOR_SIZE;
       erase_shift := log2_uint N25Q128A_SUBSECTOR_SIZE;
       start := 0;
       size := N25Q128A_FLASH_SIZE |} in
  let dev :=
    bio_initialize_bdev device_name N25Q128A_PAGE_SIZE
      (N25Q128A_FLASH_SIZE / N25Q128A_PAGE_SIZE) 1 [geometry_info] in
  {| name := name dev;
     block_size := block_size dev;
     block_shift := block_shift dev;
     block_count := block_count dev;
     total_size := total_size dev;
     geometry_count := geometry_count dev;
     geometry := geometry dev;
     read := Some spiflash_bdev_read_hook;
     read_block := Some spiflash_bdev_read_block_hook;
     write_block := Some spiflash_bdev_write_block_hook;
     erase := Some spiflash_bdev_erase_hook;
     ioctl := Some spiflash_ioctl_hook;
     erase_byte := 255 |}.

Definition qspi_handle_Init : QSPI_InitTypeDef :=
  {| ClockPrescaler := 1;
     FifoThreshold := 4;
     SampleShifting := QSPI_SAMPLE_SHIFTING_HALFCYCLE;
     FlashSize := POSITION_VAL N25Q128A_FLASH_SIZE - 1;
     ChipSelectHighTime := QSPI_CS_HIGH_TIME_2_CYCLE;
     ClockMode := QSPI_CLOCK_MODE_0;
     FlashID := QSPI_FLASH_ID_1;
     DualFlash := QSPI_DUALFLASH_DISABLE |}.

Definition qspi_flash_init : M status_t :=
  kernel (k_event_init cmd_event) ;;;
  kernel (k_event_init tx_event) ;;;
  kernel (k_event_init rx_event) ;;;
  kernel k_mutex_init ;;;
  result <- mutex_acquire ;;
  if negb (result =? NO_ERROR) then ret result else
  status <- hal hw_DeInit ;;
  if negb (status =? HAL_OK) then
    let result := hal_error_to_status status in
    mutex_release ;;; ret NO_ERROR
  else
  status <- hal (hw_Init qspi_handle_Init) ;;
  if negb (status =? HAL_OK) then
    let result := hal_error_to_status status in
    mutex_release ;;; ret NO_ERROR
  else
  result <- qspi_reset_memory_unsafe ;;
  if negb (result =? NO_ERROR) then mutex_release ;;; ret NO_ERROR else
  result <- qspi_dummy_cycles_cfg_unsafe ;;
  if negb (result =? NO_ERROR) then mutex_release ;;; ret NO_ERROR else
  kernel (k_bio_register_device qspi_flash_device) ;;;
  mutex_release ;;; ret NO_ERROR.

(** The devices registered with the block-I/O layer, oldest first. *)

Fixpoint registered (t : list event) : list bdev_t :=
  match t with
  | [] => []
  | Kernel (k_bio_register_device dev) :: t' => dev :: registered t'
  | _ :: t' => registered t'
  end.

End Driver.

(** ** What the specification expects on the wire

    These definitions are written from the specification's wording, not
    from the driver; the theorems compare the driver's log with them. *)

Section Scripts.

Context {P : Platform}.

Definition status_poll_command : QSPI_CommandTypeDef :=
  {| Instruction := READ_STATUS_REG_CMD;
     Address := None; AddressSize := None;
     DummyCycles := 0;
     InstructionMode := QSPI_INSTRUCTION_1_LINE;
     AddressMode := QSPI_ADDRESS_NONE;
     AlternateByteMode := QSPI_ALTERNATE_BYTES_NONE;
     DataMode := QSPI_DATA_1_LINE;
     NbData := None;
     DdrMode := QSPI_DDR_MODE_DISABLE;
     DdrHoldHalfCycle := QSPI_DDR_HHC_ANALOG_DELAY;
     SIOOMode := QSPI_SIOO_INST_EVERY_CMD |}.

(** Poll until the bits of [mask] read as [target]. *)
Definition poll_until (mask target : Z) : QSPI_AutoPollingTypeDef :=
  {| Match := target; Mask := mask; Interval := 16; StatusBytesSize := 1;
     MatchMode := QSPI_MATCH_MODE_AND;
     AutomaticStop := QSPI_AUTOMATIC_STOP_ENABLE |}.

(** Write-enable instruction, then poll for the write-enable latch. *)
Definition write_enable_script : list hal_call :=
  [ hw_Command write_enable_command HAL_QPSI_TIMEOUT_DEFAULT_VALUE;
    hw_AutoPolling status_poll_command
      (poll_until N25Q128A_SR_WREN N25Q128A_SR_WREN)
      HAL_QPSI_TIMEOUT_DEFAULT_VALUE ].

(** Poll until the write-in-progress bit reads zero. *)
Definition mem_ready_script : list hal_call :=
  [ hw_AutoPolling_IT status_poll_command (poll_until N25Q128A_SR_WIP 0) ].

Definition page_program_command (addr : Z) : QSPI_CommandTypeDef :=
  {| Instruction := EXT_QUAD_IN_FAST_PROG_CMD;
     Address := Some addr;
     AddressSize := Some QSPI_ADDRESS_24_BITS;
     DummyCycles := 0;
     InstructionMode := QSPI_INSTRUCTION_1_LINE;
     AddressMode := QSPI_ADDRESS_4_LINES;
     AlternateByteMode := QSPI_ALTERNATE_BYTES_NONE;
     DataMode := QSPI_DATA_4_LINES;
     NbData := Some N25Q128A_PAGE_SIZE;
     DdrMode := QSPI_DDR_MODE_DISABLE;
     DdrHoldHalfCycle := QSPI_DDR_HHC_ANALOG_DELAY;
     SIOOMode := QSPI_SIOO_INST_EVERY_CMD |}.

(** The five transactions of one page program. *)
Definition page_program_script (addr data : Z) : list hal_call :=
  write_enable_script ++
  [ hw_Command (page_program_command addr) HAL_QPSI_TIMEOUT_DEFAULT_VALUE;
    hw_Transmit_IT data ] ++
  mem_ready_script.

(** The transactions of [count] page programs from block [block] on,
    the data pointer advancing by a page each time. *)
Definition block_program_script (block buf : Z) (count : nat)
  : list hal_call :=
  flat_map
    (fun i => page_program_script
                ((block + Z.of_nat i) * N25Q128A_PAGE_SIZE)
                (buf + Z.of_nat i * N25Q128A_PAGE_SIZE))
    (seq 0 count).

Definition erase_command (instruction addr : Z) : QSPI_CommandTypeDef :=
  {| Instruction := instruction;
     Address := Some addr;
     AddressSize := Some QSPI_ADDRESS_24_BITS;
     DummyCycles := 0;
     InstructionMode := QSPI_INSTRUCTION_1_LINE;
     AddressMode :=
       if instruction =? BULK_ERASE_CMD then QSPI_ADDRESS_NONE
       else QSPI_ADDRESS_1_LINE;
     AlternateByteMode := QSPI_ALTERNATE_BYTES_NONE;
     DataMode := QSPI_DATA_NONE;
     NbData := None;
     DdrMode := QSPI_DDR_MODE_DISABLE;
     DdrHoldHalfCycle := QSPI_DDR_HHC_ANALOG_DELAY;
     SIOOMode := QSPI_SIOO_INST_EVERY_CMD |}.

(** One erase chunk: write-enable handshake, the erase instruction,
    the wait for the end of the erase. *)
Definition erase_chunk_script (chunk : Z * Z) : list hal_call :=
  let (instruction, addr) := chunk in
  write_enable_script ++
  [ hw_Command_IT (erase_command instruction addr) ] ++
  mem_ready_script.

(** [k] chunks of [unit] bytes erased with [instruction], at successive
    offsets from [offset] on. *)
Definition chunks (instruction unit offset : Z) (k : nat) : list (Z * Z) :=
  map (fun i => (instruction, offset + Z.of_nat i * unit)) (seq 0 k).

(** The chunks the specification asks for: one bulk erase for the whole
    device; otherwise as many sectors as fit the length, at successive
    offsets, then subsectors covering what is left. *)
Definition erase_plan (offset len : Z) : list (Z * Z) :=
  if (offset =? 0) && (len =? N25Q128A_FLASH_SIZE)
  then [(BULK_ERASE_CMD, 0)]
  else
    let sectors := len / N25Q128A_SECTOR_SIZE in
    let rest := len mod N25Q128A_SECTOR_SIZE in
    let subsectors :=
      (rest + N25Q128A_SUBSECTOR_SIZE - 1) / N25Q128A_SUBSECTOR_SIZE in
    chunks SECTOR_ERASE_CMD N25Q128A_SECTOR_SIZE offset (Z.to_nat sectors) ++
    chunks SUBSECTOR_ERASE_CMD N25Q128A_SUBSECTOR_SIZE
      (offset + sectors * N25Q128A_SECTOR_SIZE) (Z.to_nat subsectors).

(** The bytes a plan erases. *)
Definition plan_bytes (offset len : Z) : Z :=
  if (offset =? 0) && (len =? N25Q128A_FLASH_SIZE)
  then N25Q128A_FLASH_SIZE
  else
    let sectors := len / N25Q128A_SECTOR_SIZE in
    let rest := len mod N25Q128A_SECTOR_SIZE in
    let subsectors :=
      (rest + N25Q128A_SUBSECTOR_SIZE - 1) / N25Q128A_SUBSECTOR_SIZE in
    sectors * N25Q128A_SECTOR_SIZE + subsectors * N25Q128A_SUBSECTOR_SIZE.

(** Offset, within the next [len] HAL calls counted from call number
    [from], of the first one that does not answer [HAL_OK]. *)
Fixpoint first_failure (resp : nat -> HAL_StatusTypeDef) (from len : nat)
  : option nat :=
  match len with
  | O => None
  | S len' =>
      if resp from =? HAL_OK
      then option_map S (first_failure resp (S from) len')
      else Some O
  end.

(** How many transactions of a script of length [len] are issued when
    the script stops at the first failure. *)
Definition attempted (resp : nat -> HAL_StatusTypeDef) (from len : nat)
  : nat :=
  match first_failure resp from len with
  | None => len
  | Some j => S j
  end.

(** Every HAL call still to come answers [HAL_OK]. *)
Definition all_ok (w : world) : Prop :=
  forall n, (issued w <= n)%nat -> hal_status w n = HAL_OK.

(** [issues w w' cs]: going from [w] to [w'] the driver issued exactly
    the transactions [cs], and the oracle is the same. *)
Definition issues (w w' : world) (cs : list hal_call) : Prop :=
  hal_status w' = hal_status w /\
  issued w' = (issued w + length cs)%nat /\
  transactions (trace w') = transactions (trace w) ++ cs.

(** The three erase instructions and what each erases. *)
Definition erase_unit (instruction num_erased_bytes : Z) : Prop :=
  (instruction = SUBSECTOR_ERASE_CMD /\
   num_erased_bytes = N25Q128A_SUBSECTOR_SIZE) \/
  (instruction = SECTOR_ERASE_CMD /\
   num_erased_bytes = N25Q128A_SECTOR_SIZE) \/
  (instruction = BULK_ERASE_CMD /\
   num_erased_bytes = N25Q128A_FLASH_SIZE).

(** What a script of [len] transactions returns: [success] when every
    transaction answers [HAL_OK], else the translation of the first
    status that does not. *)
Definition outcome (success : Z) (resp : nat -> HAL_StatusTypeDef)
  (from len : nat) : Z :=
  match first_failure resp from len with
  | None => success
  | Some j => hal_error_to_status (resp (from + j)%nat)
  end.

End Scripts.

(** ** Locking discipline and the remaining command scripts *)

Section Protocol.

Context {P : Platform}.

(** The acquisitions and releases of the device mutex in a log. *)
Fixpoint locking (t : list event) : list kernel_call :=
  match t with
  | [] => []
  | Kernel k_mutex_acquire :: t' => k_mutex_acquire :: locking t'
  | Kernel k_mutex_release :: t' => k_mutex_release :: locking t'
  | _ :: t' => locking t'
  end.

(** A computation that only appends to the log, never touches the
    mutex and registers no device. *)
Definition quiet {A : Type} (m : M A) : Prop :=
  forall w, exists evs,
    snd (m w) = record_events evs w /\
    locking evs = [] /\ registered evs = [].

(** Between [w] and [w'] the mutex was taken once, released once at the
    very end, and everything else logged lies in between. *)
Definition locked_window (w w' : world) (mid : list event) : Prop :=
  trace w' =
    trace w ++ Kernel k_mutex_acquire :: mid ++ [Kernel k_mutex_release] /\
  locking mid = [].

(** A computation that never takes the mutex and ends by releasing
    it. *)
Definition releasing {A : Type} (m : M A) : Prop :=
  forall w, exists evs,
    snd (m w) = record_events (evs ++ [Kernel k_mutex_release]) w /\
    locking evs = [].

Definition read_command (offset len : Z) : QSPI_CommandTypeDef :=
  {| Instruction := QUAD_INOUT_FAST_READ_CMD;
     Address := Some offset;
     AddressSize := Some QSPI_ADDRESS_24_BITS;
     DummyCycles := N25Q128A_DUMMY_CYCLES_READ_QUAD;
     InstructionMode := QSPI_INSTRUCTION_1_LINE;
     AddressMode := QSPI_ADDRESS_4_LINES;
     AlternateByteMode := QSPI_ALTERNATE_BYTES_NONE;
     DataMode := QSPI_DATA_4_LINES;
     NbData := Some len;
     DdrMode := QSPI_DDR_MODE_DISABLE;
     DdrHoldHalfCycle := QSPI_DDR_HHC_ANALOG_DELAY;
     SIOOMode := QSPI_SIOO_INST_EVERY_CMD |}.

(** One quad read: the command, then the reception into [buf]. *)
Definition read_script (offset len buf : Z) : list hal_call :=
  [ hw_Command (read_command offset len) HAL_QPSI_TIMEOUT_DEFAULT_VALUE;
    hw_Receive_IT buf ].

(** A bare instruction: no address, no data. *)
Definition bare_command (instruction : Z) : QSPI_CommandTypeDef :=
  {| Instruction := instruction;
     Address := None; AddressSize := None;
     DummyCycles := 0;
     InstructionMode := QSPI_INSTRUCTION_1_LINE;
     AddressMode := QSPI_ADDRESS_NONE;
     AlternateByteMode := QSPI_ALTERNATE_BYTES_NONE;
     DataMode := QSPI_DATA_NONE;
     NbData := None;
     DdrMode := QSPI_DDR_MODE_DISABLE;
     DdrHoldHalfCycle := QSPI_DDR_HHC_ANALOG_DELAY;
     SIOOMode := QSPI_SIOO_INST_EVERY_CMD |}.

(** Reset enable, reset memory, wait for the memory to be ready. *)
Definition reset_script : list hal_call :=
  [ hw_Command_IT (bare_command RESET_ENABLE_CMD);
    hw_Command_IT (bare_command RESET_MEMORY_CMD) ] ++
  mem_ready_script.

(** An access to the volatile configuration register: one byte on one
    line. *)
Definition vcr_command (instruction : Z) : QSPI_CommandTypeDef :=
  {| Instruction := instruction;
     Address := None; AddressSize := None;
     DummyCycles := 0;
     InstructionMode := QSPI_INSTRUCTION_1_LINE;
     AddressMode := QSPI_ADDRESS_NONE;
     AlternateByteMode := QSPI_ALTERNATE_BYTES_NONE;
     DataMode := QSPI_DATA_1_LINE;
     NbData := Some 1;
     DdrMode := QSPI_DDR_MODE_DISABLE;
     DdrHoldHalfCycle := QSPI_DDR_HHC_ANALOG_DELAY;
     SIOOMode := QSPI_SIOO_INST_EVERY_CMD |}.

(** The dummy-cycle field the driver writes. *)
Definition dummy_cycles_field : Z :=
  Z.shiftl N25Q128A_DUMMY_CYCLES_READ_QUAD
    (POSITION_VAL N25Q128A_VCR_NB_DUMMY).

(** Read the register, write-enable, write [value] back. *)
Definition dummy_cycles_script (value : Z) : list hal_call :=
  [ hw_Command (vcr_command READ_VOL_CFG_REG_CMD)
      HAL_QPSI_TIMEOUT_DEFAULT_VALUE;
    hw_Receive HAL_QPSI_TIMEOUT_DEFAULT_VALUE ] ++
  write_enable_script ++
  [ hw_Command (vcr_command WRITE_VOL_CFG_REG_CMD)
      HAL_QPSI_TIMEOUT_DEFAULT_VALUE;
    hw_Transmit value HAL_QPSI_TIMEOUT_DEFAULT_VALUE ].

(** The eleven transactions of a complete initialisation. *)
Definition init_script (value : Z) : list hal_call :=
  [ hw_DeInit; hw_Init qspi_handle_Init ] ++
  reset_script ++ dummy_cycles_script value.

(** The part of [qspi_flash_init] that follows the initialisation of
    the controller, named for the proofs; [qspi_flash_init_configure]
    shows that it is that part. *)
Definition init_configure : M status_t :=
  result <- qspi_reset_memory_unsafe ;;
  if negb (result =? NO_ERROR) then mutex_release ;;; ret NO_ERROR else
  result <- qspi_dummy_cycles_cfg_unsafe ;;
  if negb (result =? NO_ERROR) then mutex_release ;;; ret NO_ERROR else
  kernel (k_bio_register_device qspi_flash_device) ;;;
  mutex_release ;;; ret NO_ERROR.

(** What [qspi_flash_init] logs before it touches the controller. *)
Definition init_prologue : list event :=
  [ Kernel (k_event_init cmd_event);
    Kernel (k_event_init tx_event);
    Kernel (k_event_init rx_event);
    Kernel k_mutex_init ].

End Protocol.

(** ** A concrete platform

    The codes of the kernel's [err.h] and of the vendor HAL, and the
    part header of the N25Q128A (16 MiB, 64 KiB sectors, 4 KiB
    subsectors, 256-byte pages), as published.  They serve the closed
    examples only; the general theorems hold for every platform that
    satisfies [PlatformOk]. *)

Definition n25q128a : Platform :=
  {| NO_ERROR := 0;
     ERR_GENERIC := -1;
     ERR_INVALID_ARGS := -8;
     ERR_TIMED_OUT := -13;
     ERR_NOT_IMPLEMENTED := -27;
     ERR_BUSY := -33;
     HAL_OK := 0;
     HAL_ERROR := 1;
     HAL_BUSY := 2;
     HAL_TIMEOUT := 3;
     HAL_QPSI_TIMEOUT_DEFAULT_VALUE := 5000;
     N25Q128A_FLASH_SIZE := 16777216;
     N25Q128A_SECTOR_SIZE := 65536;
     N25Q128A_SUBSECTOR_SIZE := 4096;
     N25Q128A_PAGE_SIZE := 256;
     N25Q128A_DUMMY_CYCLES_READ_QUAD := 10;
     RESET_ENABLE_CMD := 102;
     RESET_MEMORY_CMD := 153;
     QUAD_INOUT_FAST_READ_CMD := 235;
     WRITE_ENABLE_CMD := 6;
     READ_STATUS_REG_CMD := 5;
     READ_VOL_CFG_REG_CMD := 133;
     WRITE_VOL_CFG_REG_CMD := 129;
     EXT_QUAD_IN_FAST_PROG_CMD := 18;
     SUBSECTOR_ERASE_CMD := 32;
     SECTOR_ERASE_CMD := 216;
     BULK_ERASE_CMD := 199;
     N25Q128A_SR_WIP := 1;
     N25Q128A_SR_WREN := 2;
     N25Q128A_VCR_NB_DUMMY := 240;
     log2_uint := Z.log2;
     POSITION_VAL := fun x => Z.log2 (Z.land x (- x)) |}.

(** Modelled from the spec: the range-trimming helpers belong to the
    block-I/O library, which is not among the sources.  The
    specification has them clamp a byte range or a block range to the
    device's valid extent and answer zero when the request lies
    entirely outside it. *)
Definition trim_range (dev : bdev_t) (offset len : Z) : Z :=
  if (offset <? 0) || (total_size dev <=? offset) then 0
  else Z.max 0 (Z.min len (total_size dev - offset)).

(** Modelled from the spec: the block-range counterpart of
    [trim_range], which is missing from the sources for the same
    reason; the extent is the device's block count. *)
Definition trim_block_range (dev : bdev_t) (block count : Z) : Z :=
  if (block <? 0) || (block_count dev <=? block) then 0
  else Z.max 0 (Z.min count (block_count dev - block)).

Definition bio : BlockIO :=
  {| bio_trim_range := trim_range;
     bio_trim_block_range := trim_block_range |}.

(** The device as registered on the concrete platform. *)
Definition flash : bdev_t := @qspi_flash_device n25q128a.

(** A world whose hardware always answers [HAL_OK]. *)
Definition healthy : world :=
  {| hal_status := fun _ => 0;
     vcr_byte := 251;
     acquire_status := 0;
     issued := 0;
     trace := [] |}.

(** A world whose HAL call number [n] answers [status]; the others
    answer [HAL_OK]. *)
Definition failing_at (n : nat) (status : HAL_StatusTypeDef) : world :=
  {| hal_status := fun k => if Nat.eqb k n then status else 0;
     vcr_byte := 251;
     acquire_status := 0;
     issued := 0;
     trace := [] |}.

(** A world in which the kernel refuses the mutex. *)
Definition mutex_refused : world :=
  {| hal_status := fun _ => 0;
     vcr_byte := 251;
     acquire_status := -13;
     issued := 0;
     trace := [] |}.

(** * Properties *)

Section Properties.

Context {P : Platform} {B : BlockIO}.

(** ** The log *)

Lemma transactions_app (t1 t2 : list event) :
  transactions (t1 ++ t2) = transactions t1 ++ transactions t2.
Proof.
  induction t1 as [|[c|k] t1 IH]; simpl; [reflexivity | f_equal; exact IH | exact IH].
Qed.

Lemma registered_app (t1 t2 : list event) :
  registered (t1 ++ t2) = registered t1 ++ registered t2.
Proof.
  induction t1 as [|[c|[]] t1 IH]; simpl; rewrite ?IH; reflexivity.
Qed.

(** ** Alignment *)

Lemma IS_ALIGNED_multiple (a k : Z) :
  0 <= k -> IS_ALIGNED a (2 ^ k) = true <-> a mod 2 ^ k = 0.
Proof.
  intros Hk. unfold IS_ALIGNED.
  replace (2 ^ k - 1) with (Z.ones k) by (rewrite Z.ones_equiv; lia).
  rewrite Z.land_ones by exact Hk.
  apply Z.eqb_eq.
Qed.

Lemma page_aligned_multiple {OK : PlatformOk P} (a : Z) :
  IS_ALIGNED a N25Q128A_PAGE_SIZE = true <-> a mod N25Q128A_PAGE_SIZE = 0.
Proof.
  rewrite page_size_pow2. apply IS_ALIGNED_multiple, Z.log2_nonneg.
Qed.

(** ** Status translation *)

Lemma hal_error_to_status_ok : hal_error_to_status HAL_OK = NO_ERROR.
Proof. unfold hal_error_to_status. now rewrite Z.eqb_refl. Qed.

Lemma hal_error_to_status_failure (s : HAL_StatusTypeDef) :
  s <> HAL_OK ->
  hal_error_to_status s = ERR_GENERIC \/
  hal_error_to_status s = ERR_BUSY \/
  hal_error_to_status s = ERR_TIMED_OUT.
Proof.
  intros Hs. unfold hal_error_to_status.
  destruct (Z.eqb_spec s HAL_OK); [contradiction|].
  destruct (s =? HAL_ERROR); [now left|].
  destruct (s =? HAL_BUSY); [now right; left|].
  destruct (s =? HAL_TIMEOUT); [now right; right | now left].
Qed.

Lemma hal_error_to_status_neg {OK : PlatformOk P} (s : HAL_StatusTypeDef) :
  s <> HAL_OK -> hal_error_to_status s < 0.
Proof.
  intros Hs.
  pose proof err_generic_neg. pose proof err_busy_neg.
  pose proof err_timed_out_neg.
  destruct (hal_error_to_status_failure s Hs) as [E|[E|E]]; rewrite E; lia.
Qed.

(** C7.  The status translator is a total function of the hardware
    status.  Its value is always one of the four outcomes success,
    generic failure, device busy, timed out, which are four different
    codes; the four recognised statuses map to them in that order; and a
    status outside the recognised set maps to generic failure, hence
    never to success. *)
Theorem hal_error_to_status_closed {OK : PlatformOk P}
  (s : HAL_StatusTypeDef) :
  In (hal_error_to_status s)
     [NO_ERROR; ERR_GENERIC; ERR_BUSY; ERR_TIMED_OUT] /\
  NoDup [NO_ERROR; ERR_GENERIC; ERR_BUSY; ERR_TIMED_OUT] /\
  hal_error_to_status HAL_OK = NO_ERROR /\
  hal_error_to_status HAL_ERROR = ERR_GENERIC /\
  hal_error_to_status HAL_BUSY = ERR_BUSY /\
  hal_error_to_status HAL_TIMEOUT = ERR_TIMED_OUT /\
  (~ In s [HAL_OK; HAL_ERROR; HAL_BUSY; HAL_TIMEOUT] ->
   hal_error_to_status s = ERR_GENERIC /\
   hal_error_to_status s <> NO_ERROR).
Proof.
  pose proof no_error_zero as H0. pose proof err_generic_neg as Hg.
  pose proof err_busy_neg as Hb. pose proof err_timed_out_neg as Ht.
  destruct outcomes_distinct as (Hgb & Hgt & Hbt).
  destruct hal_codes_distinct as (D1 & D2 & D3 & D4 & D5 & D6).
  repeat split.
  - destruct (Z.eq_dec s HAL_OK) as [->|Hs].
    + rewrite hal_error_to_status_ok. now left.
    + destruct (hal_error_to_status_failure s Hs) as [E|[E|E]];
        rewrite E; simpl; tauto.
  - repeat constructor; simpl; intuition lia.
  - apply hal_error_to_status_ok.
  - unfold hal_error_to_status.
    destruct (Z.eqb_spec HAL_ERROR HAL_OK); [congruence|].
    now rewrite Z.eqb_refl.
  - unfold hal_error_to_status.
    destruct (Z.eqb_spec HAL_BUSY HAL_OK); [congruence|].
    destruct (Z.eqb_spec HAL_BUSY HAL_ERROR); [congruence|].
    now rewrite Z.eqb_refl.
  - unfold hal_error_to_status.
    destruct (Z.eqb_spec HAL_TIMEOUT HAL_OK); [congruence|].
    destruct (Z.eqb_spec HAL_TIMEOUT HAL_ERROR); [congruence|].
    destruct (Z.eqb_spec HAL_TIMEOUT HAL_BUSY); [congruence|].
    now rewrite Z.eqb_refl.
  - unfold hal_error_to_status. simpl in H.
    destruct (Z.eqb_spec s HAL_OK); [intuition congruence|].
    destruct (Z.eqb_spec s HAL_ERROR); [intuition congruence|].
    destruct (Z.eqb_spec s HAL_BUSY); [intuition congruence|].
    destruct (Z.eqb_spec s HAL_TIMEOUT); [intuition congruence|].
    reflexivity.
  - simpl in H.
    assert (Hs : s <> HAL_OK) by intuition congruence.
    pose proof (hal_error_to_status_neg s Hs). lia.
Qed.

(** ** Argument checks *)

(** C2.  A page write at an address that is not a multiple of the page
    size returns the invalid-argument error and leaves the world as it
    was: no transaction is issued, nothing is logged. *)
Theorem qspi_write_page_unsafe_misaligned {OK : PlatformOk P}
  (addr data : Z) (w : world) :
  addr mod N25Q128A_PAGE_SIZE <> 0 ->
  qspi_write_page_unsafe addr data w = (ERR_INVALID_ARGS, w).
Proof.
  intros Hmis. unfold qspi_write_page_unsafe.
  destruct (IS_ALIGNED addr N25Q128A_PAGE_SIZE) eqn:E; [|reflexivity].
  apply page_aligned_multiple in E. contradiction.
Qed.

(** C5.  An erase with the bulk-erase instruction and a nonzero address
    returns the invalid-argument error and leaves the world as it was:
    the check comes before the write-enable handshake and the erase
    command. *)
Theorem qspi_erase_bulk_nonzero (block_addr : Z) (w : world) :
  block_addr <> 0 ->
  qspi_erase block_addr BULK_ERASE_CMD w = (ERR_INVALID_ARGS, w).
Proof.
  intros Hnz. unfold qspi_erase.
  rewrite Z.eqb_refl.
  destruct (Z.eqb_spec block_addr 0); [contradiction | reflexivity].
Qed.

(** C6.  Each of the read, write-block and erase entry points trims its
    request first and does nothing else with the untrimmed length: two
    requests that trim to the same length behave alike, and a request
    that trims to zero returns 0 with the world unchanged (no
    transaction, no lock taken). *)
Theorem entry_points_trim_first
  (device : bdev_t) (buf offset block : Z) (w : world) (fuel : nat) :
  (forall len,
      bio_trim_range device offset len = 0 ->
      spiflash_bdev_read device buf offset len w = (0, w)) /\
  (forall count,
      bio_trim_block_range device block count = 0 ->
      spiflash_bdev_write_block device buf block count w = (0, w)) /\
  (forall len,
      bio_trim_range device offset len = 0 ->
      spiflash_bdev_erase fuel device offset len w = Some (0, w)) /\
  (forall len1 len2,
      bio_trim_range device offset len1 = bio_trim_range device offset len2 ->
      spiflash_bdev_read device buf offset len1 w =
      spiflash_bdev_read device buf offset len2 w /\
      spiflash_bdev_erase fuel device offset len1 w =
      spiflash_bdev_erase fuel device offset len2 w) /\
  (forall count1 count2,
      bio_trim_block_range device block count1 =
      bio_trim_block_range device block count2 ->
      spiflash_bdev_write_block device buf block count1 w =
      spiflash_bdev_write_block device buf block count2 w).
Proof.
  repeat split.
  - intros len H. unfold spiflash_bdev_read. now rewrite H.
  - intros count H. unfold spiflash_bdev_write_block. now rewrite H.
  - intros len H. unfold spiflash_bdev_erase. now rewrite H.
  - unfold spiflash_bdev_read. now rewrite H.
  - unfold spiflash_bdev_erase. now rewrite H.
  - intros count1 count2 H. unfold spiflash_bdev_write_block. now rewrite H.
Qed.

(** ** Machine integers in range *)

Lemma u32_id (z : Z) : 0 <= z < 2 ^ 32 -> u32 z = z.
Proof. intros H. unfold u32. now apply Z.mod_small. Qed.

Lemma s32_id (z : Z) : - 2 ^ 31 <= z < 2 ^ 31 -> s32 z = z.
Proof. intros H. unfold s32. rewrite Z.mod_small; lia. Qed.

Lemma s64_id (z : Z) : - 2 ^ 63 <= z < 2 ^ 63 -> s64 z = z.
Proof. intros H. unfold s64. rewrite Z.mod_small; lia. Qed.

(** ** Scripts that stop at the first failure *)

Lemma first_failure_Some resp from len j :
  first_failure resp from len = Some j ->
  (j < len)%nat /\ resp (from + j)%nat <> HAL_OK.
Proof.
  revert from j. induction len as [|len IH]; intros from j; simpl.
  - discriminate.
  - destruct (Z.eqb_spec (resp from) HAL_OK) as [E|E].
    + destruct (first_failure resp (S from) len) as [i|] eqn:F;
        simpl; [|discriminate].
      intros [= <-]. destruct (IH _ _ F) as [Hlt Hne].
      split; [lia|]. now replace (from + S i)%nat with (S from + i)%nat by lia.
    + intros [= <-]. split; [lia|]. now rewrite Nat.add_0_r.
Qed.

Lemma first_failure_app resp from a b :
  first_failure resp from (a + b) =
  match first_failure resp from a with
  | Some j => Some j
  | None => option_map (Nat.add a) (first_failure resp (from + a) b)
  end.
Proof.
  revert from. induction a as [|a IH]; intros from; simpl.
  - rewrite Nat.add_0_r. destruct (first_failure resp from b); reflexivity.
  - destruct (resp from =? HAL_OK); [|reflexivity].
    rewrite IH. replace (from + S a)%nat with (S from + a)%nat by lia.
    destruct (first_failure resp (S from) a); simpl; [reflexivity|].
    match goal with
    | |- context [first_failure resp ?x b] =>
        destruct (first_failure resp x b); reflexivity
    end.
Qed.

Lemma first_failure_all_ok (w : world) len :
  all_ok w -> first_failure (hal_status w) (issued w) len = None.
Proof.
  intros Hok. assert (G : forall len from, (issued w <= from)%nat ->
    first_failure (hal_status w) from len = None).
  { clear len. induction len as [|len IH]; intros from Hle; simpl.
    - reflexivity.
    - rewrite (Hok from Hle), Z.eqb_refl, IH by lia. reflexivity. }
  now apply G.
Qed.

Lemma attempted_le resp from len : (attempted resp from len <= len)%nat.
Proof.
  unfold attempted. destruct (first_failure resp from len) as [j|] eqn:F.
  - apply first_failure_Some in F. lia.
  - lia.
Qed.

(** ** Worlds related by a run *)


Lemma issues_refl w : issues w w [].
Proof.
  unfold issues; simpl. rewrite Nat.add_0_r, app_nil_r. auto.
Qed.

Lemma issues_trans w1 w2 w3 cs1 cs2 :
  issues w1 w2 cs1 -> issues w2 w3 cs2 -> issues w1 w3 (cs1 ++ cs2).
Proof.
  intros (H1 & I1 & T1) (H2 & I2 & T2). unfold issues.
  rewrite H2, H1, I2, I1, T2, T1, length_app, app_assoc.
  repeat split; lia.
Qed.

Lemma issues_hal w c : issues w (record_event (Hal c) w) [c].
Proof.
  unfold issues; simpl. rewrite transactions_app. simpl.
  repeat split; lia.
Qed.

Lemma issues_kernel w k : issues w (record_event (Kernel k) w) [].
Proof.
  unfold issues; simpl. rewrite transactions_app. simpl.
  rewrite Nat.add_0_r. auto.
Qed.

Lemma issues_all_ok w w' cs : issues w w' cs -> all_ok w -> all_ok w'.
Proof.
  intros (H & I & _) Hok n Hn. rewrite H. apply Hok. lia.
Qed.

(** Sequencing two scripts: the second runs only if the first went
    through. *)
Lemma issues_seq w w1 w' (s1 s2 : list hal_call) a b :
  length s1 = a ->
  first_failure (hal_status w) (issued w) a = None ->
  issues w w1 s1 ->
  issues w1 w' (firstn (attempted (hal_status w) (issued w + a) b) s2) ->
  issues w w' (firstn (attempted (hal_status w) (issued w) (a + b))
                 (s1 ++ s2)).
Proof.
  intros La F I1 I2.
  unfold attempted in *. rewrite first_failure_app, F.
  replace (firstn _ (s1 ++ s2))
    with (s1 ++ firstn (match first_failure (hal_status w) (issued w + a) b
                        with Some j => S j | None => b end) s2).
  - eapply issues_trans; eassumption.
  - subst a.
    destruct (first_failure (hal_status w) (issued w + length s1) b) as [j|];
      cbn [option_map].
    + replace (S (length s1 + j)) with (length s1 + S j)%nat by lia.
      now rewrite firstn_app_2.
    + now rewrite firstn_app_2.
Qed.

Lemma issues_stop w w' (s1 s2 : list hal_call) a b j :
  length s1 = a ->
  first_failure (hal_status w) (issued w) a = Some j ->
  issues w w' (firstn (attempted (hal_status w) (issued w) a) s1) ->
  issues w w' (firstn (attempted (hal_status w) (issued w) (a + b))
                 (s1 ++ s2)).
Proof.
  intros La F I1. pose proof (first_failure_Some _ _ _ _ F) as [Hj _].
  unfold attempted in *. rewrite first_failure_app, F in *.
  rewrite firstn_app.
  replace (S j - length s1)%nat with O by lia.
  simpl. now rewrite app_nil_r.
Qed.

(** ** Single operations *)

Ltac run_driver :=
  unfold bind, hal, kernel, ret, event_wait, mutex_release, mutex_acquire;
  cbn [fst snd negb hal_status issued vcr_byte acquire_status record_event].

Lemma hal_error_not_success {OK : PlatformOk P} (s : HAL_StatusTypeDef) :
  (s =? HAL_OK) = false -> (hal_error_to_status s =? NO_ERROR) = false.
Proof.
  intros E. apply Z.eqb_neq in E. apply Z.eqb_neq.
  pose proof (hal_error_to_status_neg s E). pose proof no_error_zero. lia.
Qed.

Ltac norm_index :=
  repeat match goal with
         | |- context [(?n + S ?k)%nat] => rewrite (Nat.add_succ_r n k)
         end;
  rewrite ?Nat.add_0_r.

Ltac close_issues :=
  unfold issues, page_program_script, erase_chunk_script,
    write_enable_script, mem_ready_script;
  cbn [hal_status issued trace record_event];
  rewrite ?transactions_app; cbn [transactions app length firstn];
  rewrite <- ?app_assoc; cbn [app];
  repeat split; try reflexivity; try lia.

Lemma qspi_write_enable_unsafe_run (w : world) :
  exists w',
    qspi_write_enable_unsafe w =
      (outcome NO_ERROR (hal_status w) (issued w) 2, w') /\
    issues w w'
      (firstn (attempted (hal_status w) (issued w) 2) write_enable_script).
Proof.
  unfold qspi_write_enable_unsafe, outcome, attempted. run_driver.
  cbn [first_failure].
  destruct (hal_status w (issued w) =? HAL_OK) eqn:E0; run_driver;
    cbn [option_map].
  - destruct (hal_status w (S (issued w)) =? HAL_OK) eqn:E1;
      cbn [negb option_map]; norm_index; eexists;
      (split; [reflexivity | close_issues]).
  - norm_index. eexists. split; [reflexivity | close_issues].
Qed.

Ltac branch_on_status w :=
  repeat (first
    [ rewrite Z.eqb_refl
    | rewrite hal_error_not_success by assumption
    | match goal with
      | |- context [hal_status w ?n =? HAL_OK] =>
          destruct (hal_status w n =? HAL_OK) eqn:?
      end ];
    run_driver; cbn [option_map]).

Lemma qspi_write_page_unsafe_run {OK : PlatformOk P} (addr data : Z)
  (w : world) :
  addr mod N25Q128A_PAGE_SIZE = 0 ->
  exists w',
    qspi_write_page_unsafe addr data w =
      (outcome N25Q128A_PAGE_SIZE (hal_status w) (issued w) 5, w') /\
    issues w w'
      (firstn (attempted (hal_status w) (issued w) 5)
         (page_program_script addr data)).
Proof.
  intros Hal. apply page_aligned_multiple in Hal.
  unfold qspi_write_page_unsafe, qspi_write_enable_unsafe, qspi_tx,
    qspi_auto_polling_mem_ready_unsafe, outcome, attempted.
  rewrite Hal. run_driver. cbn [first_failure].
  branch_on_status w; norm_index; eexists;
    (split; [reflexivity | close_issues]).
Qed.

Lemma qspi_erase_run {OK : PlatformOk P} (block_addr instruction size : Z)
  (w : world) :
  erase_unit instruction size ->
  (instruction = BULK_ERASE_CMD -> block_addr = 0) ->
  exists r w',
    qspi_erase block_addr instruction w = (r, w') /\
    issues w w'
      (firstn (attempted (hal_status w) (issued w) 4)
         (erase_chunk_script (instruction, block_addr))) /\
    match first_failure (hal_status w) (issued w) 4 with
    | None => r = size
    | Some _ => r < 0
    end.
Proof.
  intros Hunit Hbulk.
  destruct erase_cmds_distinct as (D1 & D2 & D3).
  pose proof err_generic_neg as Hg.
  assert (Hshape :
    (if instruction =? SUBSECTOR_ERASE_CMD
     then Some (N25Q128A_SUBSECTOR_SIZE, QSPI_ADDRESS_1_LINE)
     else if instruction =? SECTOR_ERASE_CMD
     then Some (N25Q128A_SECTOR_SIZE, QSPI_ADDRESS_1_LINE)
     else if instruction =? BULK_ERASE_CMD
     then Some (N25Q128A_FLASH_SIZE, QSPI_ADDRESS_NONE)
     else None) =
    Some (size, if instruction =? BULK_ERASE_CMD then QSPI_ADDRESS_NONE
                else QSPI_ADDRESS_1_LINE)).
  { destruct Hunit as [[-> ->]|[[-> ->]|[-> ->]]].
    - rewrite Z.eqb_refl.
      destruct (Z.eqb_spec SUBSECTOR_ERASE_CMD BULK_ERASE_CMD);
        [contradiction | reflexivity].
    - destruct (Z.eqb_spec SECTOR_ERASE_CMD SUBSECTOR_ERASE_CMD);
        [congruence|].
      rewrite Z.eqb_refl.
      destruct (Z.eqb_spec SECTOR_ERASE_CMD BULK_ERASE_CMD);
        [contradiction | reflexivity].
    - destruct (Z.eqb_spec BULK_ERASE_CMD SUBSECTOR_ERASE_CMD);
        [congruence|].
      destruct (Z.eqb_spec BULK_ERASE_CMD SECTOR_ERASE_CMD);
        [congruence|].
      now rewrite Z.eqb_refl. }
  assert (Hguard :
    (instruction =? BULK_ERASE_CMD) && negb (block_addr =? 0) = false).
  { destruct (Z.eqb_spec instruction BULK_ERASE_CMD) as [E|E];
      [|reflexivity].
    rewrite (Hbulk E). reflexivity. }
  unfold qspi_erase. rewrite Hguard, Hshape.
  unfold qspi_write_enable_unsafe, qspi_cmd,
    qspi_auto_polling_mem_ready_unsafe, attempted.
  run_driver. cbn [first_failure].
  branch_on_status w; norm_index; do 2 eexists;
    (split; [reflexivity | split; [close_issues|]]);
    try reflexivity; try lia;
    apply hal_error_to_status_neg, Z.eqb_neq; assumption.
Qed.

(** C3.  A page write at a page-aligned address issues, in this order:
    the write-enable instruction and an auto-poll of the status register
    for the write-enable latch; the quad page-program instruction with a
    24-bit address and a data phase of one page, then the transmission
    of the buffer; an auto-poll of the status register for a cleared
    write-in-progress bit.  Whatever the hardware answers, the
    transactions issued are an initial part of that sequence; the result
    is the page size exactly when all five went through, and negative
    otherwise. *)
Theorem qspi_write_page_unsafe_sequence {OK : PlatformOk P}
  (addr data : Z) (w : world) :
  addr mod N25Q128A_PAGE_SIZE = 0 ->
  exists (enable poll_latch program poll_busy : QSPI_CommandTypeDef)
         (latch busy : QSPI_AutoPollingTypeDef) (r : Z) (w' : world),
    (Instruction enable = WRITE_ENABLE_CMD /\
     Instruction poll_latch = READ_STATUS_REG_CMD /\
     Mask latch = N25Q128A_SR_WREN /\ Match latch = N25Q128A_SR_WREN) /\
    (Instruction program = EXT_QUAD_IN_FAST_PROG_CMD /\
     AddressSize program = Some QSPI_ADDRESS_24_BITS /\
     Address program = Some addr /\
     DataMode program = QSPI_DATA_4_LINES /\
     NbData program = Some N25Q128A_PAGE_SIZE) /\
    (Instruction poll_busy = READ_STATUS_REG_CMD /\
     Mask busy = N25Q128A_SR_WIP /\ Match busy = 0) /\
    let script :=
      [ hw_Command enable HAL_QPSI_TIMEOUT_DEFAULT_VALUE;
        hw_AutoPolling poll_latch latch HAL_QPSI_TIMEOUT_DEFAULT_VALUE;
        hw_Command program HAL_QPSI_TIMEOUT_DEFAULT_VALUE;
        hw_Transmit_IT data;
        hw_AutoPolling_IT poll_busy busy ] in
    qspi_write_page_unsafe addr data w = (r, w') /\
    (exists k : nat,
        transactions (trace w') = transactions (trace w) ++ firstn k script) /\
    (all_ok w ->
     r = N25Q128A_PAGE_SIZE /\
     transactions (trace w') = transactions (trace w) ++ script) /\
    (r = N25Q128A_PAGE_SIZE /\
     transactions (trace w') = transactions (trace w) ++ script \/
     r < 0).
Proof.
  intros Hal.
  destruct (qspi_write_page_unsafe_run addr data w Hal) as (w' & E & _ & _ & T).
  exists write_enable_command, status_poll_command,
    (page_program_command addr), status_poll_command,
    (poll_until N25Q128A_SR_WREN N25Q128A_SR_WREN),
    (poll_until N25Q128A_SR_WIP 0),
    (outcome N25Q128A_PAGE_SIZE (hal_status w) (issued w) 5), w'.
  repeat (split; [repeat split; reflexivity|]).
  cbv zeta. split; [exact E|].
  change (page_program_script addr data) with
    [ hw_Command write_enable_command HAL_QPSI_TIMEOUT_DEFAULT_VALUE;
      hw_AutoPolling status_poll_command
        (poll_until N25Q128A_SR_WREN N25Q128A_SR_WREN)
        HAL_QPSI_TIMEOUT_DEFAULT_VALUE;
      hw_Command (page_program_command addr) HAL_QPSI_TIMEOUT_DEFAULT_VALUE;
      hw_Transmit_IT data;
      hw_AutoPolling_IT status_poll_command (poll_until N25Q128A_SR_WIP 0) ]
    in T.
  split; [eexists; exact T|].
  unfold outcome, attempted in *.
  destruct (first_failure (hal_status w) (issued w) 5) as [j|] eqn:F.
  - split.
    + intros Hok. rewrite (first_failure_all_ok w 5 Hok) in F. discriminate.
    + right. apply hal_error_to_status_neg.
      exact (proj2 (first_failure_Some _ _ _ _ F)).
  - split; [intros _|left]; (split; [reflexivity | exact T]).
Qed.

(** ** Block writes *)

Lemma flat_map_seq_shift {A : Type} (f : nat -> list A) (a n : nat) :
  flat_map f (seq (S a) n) = flat_map (fun i => f (S i)) (seq a n).
Proof.
  revert a. induction n as [|n IH]; intros a; simpl; [reflexivity|].
  now rewrite IH.
Qed.

Lemma block_program_script_S (block buf : Z) (count : nat) :
  block_program_script block buf (S count) =
  page_program_script (block * N25Q128A_PAGE_SIZE) buf ++
  block_program_script (block + 1) (buf + N25Q128A_PAGE_SIZE) count.
Proof.
  unfold block_program_script. cbn [seq flat_map].
  rewrite flat_map_seq_shift. f_equal.
  - f_equal; simpl; lia.
  - apply flat_map_ext. intros i. f_equal; lia.
Qed.

Lemma page_program_script_length (addr data : Z) :
  length (page_program_script addr data) = 5%nat.
Proof. reflexivity. Qed.

Lemma block_program_script_length (block buf : Z) (count : nat) :
  length (block_program_script block buf count) = (5 * count)%nat.
Proof.
  revert block buf. induction count as [|count IH]; intros block buf.
  - reflexivity.
  - rewrite block_program_script_S, length_app, IH,
      page_program_script_length. lia.
Qed.

Lemma write_block_loop_run {OK : PlatformOk P} (count : nat) :
  forall (block buf total : Z) (w : world),
    0 <= block ->
    0 <= total ->
    (block + Z.of_nat count) * N25Q128A_PAGE_SIZE < 2 ^ 31 ->
    total + Z.of_nat count * N25Q128A_PAGE_SIZE < 2 ^ 31 ->
    exists w',
      write_block_loop count block buf total w =
        (outcome (total + Z.of_nat count * N25Q128A_PAGE_SIZE)
           (hal_status w) (issued w) (5 * count), w') /\
      issues w w'
        (firstn (attempted (hal_status w) (issued w) (5 * count))
           (block_program_script block buf count)).
Proof.
  pose proof page_size_pos as Hp.
  induction count as [|count IH]; intros block buf total w Hb Ht Hfit Hsum.
  - exists w. split.
    + unfold outcome. simpl. unfold ret. f_equal. lia.
    + apply issues_refl.
  - replace (5 * S count)%nat with (5 + 5 * count)%nat by lia.
    rewrite block_program_script_S.
    cbn [write_block_loop]. unfold bind at 1.
    assert (Hblock : block + Z.of_nat (S count)
                     <= (block + Z.of_nat (S count)) * N25Q128A_PAGE_SIZE)
      by nia.
    assert (Hpage : 0 <= block * N25Q128A_PAGE_SIZE
                    <= (block + Z.of_nat (S count)) * N25Q128A_PAGE_SIZE)
      by nia.
    assert (Hacc : N25Q128A_PAGE_SIZE
                   <= Z.of_nat (S count) * N25Q128A_PAGE_SIZE) by nia.
    rewrite u32_id by lia.
    destruct (qspi_write_page_unsafe_run (block * N25Q128A_PAGE_SIZE) buf w)
      as (w1 & E & I1); [apply Z.mod_mul; lia|].
    unfold outcome in E.
    destruct (first_failure (hal_status w) (issued w) 5) as [j|] eqn:F;
      rewrite E.
    + (* the page failed *)
      pose proof (first_failure_Some _ _ _ _ F) as [_ Hne].
      pose proof (hal_error_to_status_neg _ Hne) as Hneg.
      destruct (Z.ltb_spec (hal_error_to_status
                              (hal_status w (issued w + j)%nat)) 0); [|lia].
      exists w1. split.
      * unfold ret, outcome. now rewrite first_failure_app, F.
      * eapply issues_stop; [apply page_program_script_length | exact F
                            | exact I1].
    + (* the page went through *)
      destruct (Z.ltb_spec N25Q128A_PAGE_SIZE 0); [lia|].
      assert (I1' : issues w w1
                      (page_program_script (block * N25Q128A_PAGE_SIZE) buf)).
      { unfold attempted in I1. rewrite F in I1. exact I1. }
      destruct I1' as (Hs & Hi & Htr).
      rewrite u32_id, s32_id by lia.
      destruct (IH (block + 1) (buf + N25Q128A_PAGE_SIZE)
                  (total + N25Q128A_PAGE_SIZE) w1) as (w' & E' & I');
        try lia.
      rewrite Hs, Hi, page_program_script_length in E', I'.
      exists w'. split.
      * rewrite E'. f_equal. unfold outcome.
        rewrite first_failure_app, F.
        destruct (first_failure (hal_status w) (issued w + 5) (5 * count))
          as [i|]; cbn [option_map].
        -- now rewrite Nat.add_assoc.
        -- lia.
      * eapply issues_seq; [apply page_program_script_length | exact F
                           | | exact I'].
        repeat split; assumption.
Qed.

(** C4.  A block write whose trimmed count is [c] programs one page per
    block, at the addresses [block * page], [(block + 1) * page], ...,
    the data pointer advancing by a page each time.  If every
    transaction succeeds it returns [c] times the page size.  If
    transaction number [j] of the run is the first to fail, nothing is
    issued after it and the value returned is the translation of that
    failure, a negative code: the bytes written by earlier pages are not
    reported. *)
Theorem spiflash_bdev_write_block_pages {OK : PlatformOk P}
  (device : bdev_t) (buf block count : Z) (w : world) :
  let c := bio_trim_block_range device block count in
  0 <= block ->
  0 <= c ->
  block + c <= N25Q128A_FLASH_SIZE / N25Q128A_PAGE_SIZE ->
  exists (r : Z) (w' : world),
    spiflash_bdev_write_block device buf block count w = (r, w') /\
    let script := block_program_script block buf (Z.to_nat c) in
    match first_failure (hal_status w) (issued w) (5 * Z.to_nat c) with
    | None =>
        r = c * N25Q128A_PAGE_SIZE /\
        transactions (trace w') = transactions (trace w) ++ script
    | Some j =>
        r = hal_error_to_status (hal_status w (issued w + j)%nat) /\
        r < 0 /\
        transactions (trace w') =
          transactions (trace w) ++ firstn (S j) script
    end.
Proof.
  intros c Hb Hc Hext.
  pose proof page_size_pos as Hp. pose proof flash_size_fits as Hf.
  pose proof subsector_size_pos as Hss.
  assert (Hmul : (block + c) * N25Q128A_PAGE_SIZE <= N25Q128A_FLASH_SIZE).
  { pose proof (Z.mul_div_le N25Q128A_FLASH_SIZE N25Q128A_PAGE_SIZE Hp).
    nia. }
  unfold spiflash_bdev_write_block. fold c.
  destruct (Z.eqb_spec c 0) as [E0|E0].
  - exists 0, w. split; [reflexivity|]. rewrite E0. simpl.
    rewrite app_nil_r. split; [lia | reflexivity].
  - run_driver.
    set (w0 := record_event (Kernel k_mutex_acquire) w).
    destruct (write_block_loop_run (Z.to_nat c) block buf 0 w0)
      as (w1 & E & I); rewrite ?Z2Nat.id by lia; try nia.
    rewrite E. cbn [fst snd].
    do 2 eexists. split; [reflexivity|].
    assert (I' : issues w (record_event (Kernel k_mutex_release) w1)
                   (firstn (attempted (hal_status w) (issued w)
                              (5 * Z.to_nat c))
                      (block_program_script block buf (Z.to_nat c)))).
    { change (hal_status w0) with (hal_status w) in I.
      change (issued w0) with (issued w) in I.
      pose proof (issues_trans _ _ _ _ _
                    (issues_trans _ _ _ _ _
                       (issues_kernel w k_mutex_acquire) I)
                    (issues_kernel w1 k_mutex_release)) as I'.
      cbn [app] in I'. now rewrite app_nil_r in I'. }
    destruct I' as (_ & _ & T).
    change (hal_status w0) with (hal_status w).
    change (issued w0) with (issued w).
    unfold outcome, attempted in *. cbv zeta.
    destruct (first_failure (hal_status w) (issued w) (5 * Z.to_nat c))
      as [j|] eqn:F.
    + pose proof (first_failure_Some _ _ _ _ F) as [_ Hne].
      repeat split; [now apply hal_error_to_status_neg | exact T].
    + split; [lia|]. rewrite T. f_equal.
      apply firstn_all2. rewrite block_program_script_length. lia.
Qed.

(** ** Erase loops *)

Lemma chunks_S (instruction unit offset : Z) (k : nat) :
  chunks instruction unit offset (S k) =
  (instruction, offset) :: chunks instruction unit (offset + unit) k.
Proof.
  unfold chunks. cbn [seq map]. f_equal.
  - f_equal. simpl. lia.
  - rewrite <- seq_shift, map_map. apply map_ext. intros i. f_equal. lia.
Qed.

Lemma chunks_length (instruction unit offset : Z) (k : nat) :
  length (chunks instruction unit offset k) = k.
Proof. unfold chunks. now rewrite length_map, length_seq. Qed.

Lemma erase_chunk_script_length (chunk : Z * Z) :
  length (erase_chunk_script chunk) = 4%nat.
Proof. destruct chunk. reflexivity. Qed.

Lemma erase_script_length (cs : list (Z * Z)) :
  length (flat_map erase_chunk_script cs) = (4 * length cs)%nat.
Proof.
  induction cs as [|c cs IH]; [reflexivity|].
  cbn [flat_map]. rewrite length_app, IH, erase_chunk_script_length.
  cbn [length]. lia.
Qed.

Lemma erase_sector_loop_run {OK : PlatformOk P} (len : Z) (k : nat) :
  forall (fuel : nat) (total offset : Z) (w : world),
    (k < fuel)%nat ->
    0 <= total ->
    len < 2 ^ 31 ->
    total + Z.of_nat k * N25Q128A_SECTOR_SIZE <= len
      < total + Z.of_nat k * N25Q128A_SECTOR_SIZE + N25Q128A_SECTOR_SIZE ->
    0 <= offset ->
    offset + Z.of_nat k * N25Q128A_SECTOR_SIZE < 2 ^ 32 ->
    exists res w',
      erase_sector_loop fuel len total offset w = Some (res, w') /\
      issues w w'
        (firstn (attempted (hal_status w) (issued w) (4 * k))
           (flat_map erase_chunk_script
              (chunks SECTOR_ERASE_CMD N25Q128A_SECTOR_SIZE offset k))) /\
      match first_failure (hal_status w) (issued w) (4 * k) with
      | None =>
          res = Fallthrough (total + Z.of_nat k * N25Q128A_SECTOR_SIZE)
                  (offset + Z.of_nat k * N25Q128A_SECTOR_SIZE)
      | Some _ => exists r, res = Finish r /\ r < 0
      end.
Proof.
  pose proof sector_size_pos as Hs.
  destruct erase_cmds_distinct as (_ & _ & Hsb).
  induction k as [|k IH]; intros fuel total offset w Hf Ht Hl Hlen Ho Hoff;
    (destruct fuel as [|fuel]; [lia|]); cbn [erase_sector_loop];
    assert (Hk1 : 0 <= Z.of_nat 0 * N25Q128A_SECTOR_SIZE) by lia;
    try assert (Hk2 : 0 <= Z.of_nat (S k) * N25Q128A_SECTOR_SIZE) by nia;
    rewrite (s32_id len), (s32_id (len - total)), Z.geb_leb by lia.
  - destruct (Z.leb_spec N25Q128A_SECTOR_SIZE (len - total)); [lia|].
    do 2 eexists. split; [reflexivity|]. split; [apply issues_refl|].
    simpl. f_equal; lia.
  - assert (Hk : 0 <= Z.of_nat k * N25Q128A_SECTOR_SIZE) by nia.
    replace (Z.of_nat (S k) * N25Q128A_SECTOR_SIZE)
      with (N25Q128A_SECTOR_SIZE + Z.of_nat k * N25Q128A_SECTOR_SIZE)
      in * by lia.
    destruct (Z.leb_spec N25Q128A_SECTOR_SIZE (len - total)); [|lia].
    replace (4 * S k)%nat with (4 + 4 * k)%nat by lia.
    rewrite chunks_S. cbn [flat_map].
    unfold qspi_erase_sector. rewrite u32_id by lia.
    destruct (qspi_erase_run offset SECTOR_ERASE_CMD N25Q128A_SECTOR_SIZE w)
      as (r & w1 & E & I1 & R);
      [right; left; split; reflexivity | intros; contradiction|].
    rewrite E.
    destruct (first_failure (hal_status w) (issued w) 4) as [j|] eqn:F.
    + destruct (Z.ltb_spec r 0); [|lia].
      do 2 eexists. split; [reflexivity|]. split.
      * eapply issues_stop;
          [apply erase_chunk_script_length | exact F | exact I1].
      * rewrite first_failure_app, F. eauto.
    + subst r. destruct (Z.ltb_spec N25Q128A_SECTOR_SIZE 0); [lia|].
      rewrite s32_id, s64_id by lia.
      assert (I1' : issues w w1
                (erase_chunk_script (SECTOR_ERASE_CMD, offset))).
      { unfold attempted in I1. rewrite F in I1. exact I1. }
      destruct (I1') as (Hst & Hi & _).
      destruct (IH fuel (total + N25Q128A_SECTOR_SIZE)
                  (offset + N25Q128A_SECTOR_SIZE) w1)
        as (res & w' & E' & I' & R'); try lia.
      rewrite Hst, Hi, erase_chunk_script_length in I', R'.
      exists res, w'. split; [exact E'|]. split.
      * eapply issues_seq;
          [apply erase_chunk_script_length | exact F | exact I1' | exact I'].
      * rewrite first_failure_app, F.
        destruct (first_failure (hal_status w) (issued w + 4) (4 * k));
          cbn [option_map]; [exact R'|].
        rewrite R'. f_equal; lia.
Qed.

Lemma erase_subsector_loop_run {OK : PlatformOk P} (len : Z) (k : nat) :
  forall (fuel : nat) (total offset : Z) (w : world),
    (k < fuel)%nat ->
    0 <= total ->
    0 <= len ->
    len + N25Q128A_SUBSECTOR_SIZE < 2 ^ 31 ->
    total + Z.of_nat k * N25Q128A_SUBSECTOR_SIZE - N25Q128A_SUBSECTOR_SIZE
      < len <= total + Z.of_nat k * N25Q128A_SUBSECTOR_SIZE ->
    0 <= offset ->
    offset + Z.of_nat k * N25Q128A_SUBSECTOR_SIZE < 2 ^ 32 ->
    exists res w',
      erase_subsector_loop fuel len total offset w = Some (res, w') /\
      issues w w'
        (firstn (attempted (hal_status w) (issued w) (4 * k))
           (flat_map erase_chunk_script
              (chunks SUBSECTOR_ERASE_CMD N25Q128A_SUBSECTOR_SIZE
                 offset k))) /\
      match first_failure (hal_status w) (issued w) (4 * k) with
      | None =>
          res = Fallthrough (total + Z.of_nat k * N25Q128A_SUBSECTOR_SIZE)
                  (offset + Z.of_nat k * N25Q128A_SUBSECTOR_SIZE)
      | Some _ => exists r, res = Finish r /\ r < 0
      end.
Proof.
  pose proof subsector_size_pos as Hs.
  destruct erase_cmds_distinct as (_ & Hsb & _).
  induction k as [|k IH];
    intros fuel total offset w Hf Ht Hl0 Hl Hlen Ho Hoff;
    (destruct fuel as [|fuel]; [lia|]); cbn [erase_subsector_loop];
    assert (Hk1 : 0 <= Z.of_nat 0 * N25Q128A_SUBSECTOR_SIZE) by lia;
    try assert (Hk2 : 0 <= Z.of_nat (S k) * N25Q128A_SUBSECTOR_SIZE) by nia;
    rewrite (s32_id len) by lia.
  - destruct (Z.ltb_spec total len); [lia|].
    do 2 eexists. split; [reflexivity|]. split; [apply issues_refl|].
    simpl. f_equal; lia.
  - assert (Hk : 0 <= Z.of_nat k * N25Q128A_SUBSECTOR_SIZE) by nia.
    replace (Z.of_nat (S k) * N25Q128A_SUBSECTOR_SIZE)
      with (N25Q128A_SUBSECTOR_SIZE + Z.of_nat k * N25Q128A_SUBSECTOR_SIZE)
      in * by lia.
    destruct (Z.ltb_spec total len); [|lia].
    replace (4 * S k)%nat with (4 + 4 * k)%nat by lia.
    rewrite chunks_S. cbn [flat_map].
    unfold qspi_erase_subsector. rewrite u32_id by lia.
    destruct (qspi_erase_run offset SUBSECTOR_ERASE_CMD
                N25Q128A_SUBSECTOR_SIZE w)
      as (r & w1 & E & I1 & R);
      [left; split; reflexivity | intros; contradiction|].
    rewrite E.
    destruct (first_failure (hal_status w) (issued w) 4) as [j|] eqn:F.
    + destruct (Z.ltb_spec r 0); [|lia].
      do 2 eexists. split; [reflexivity|]. split.
      * eapply issues_stop;
          [apply erase_chunk_script_length | exact F | exact I1].
      * rewrite first_failure_app, F. eauto.
    + subst r. destruct (Z.ltb_spec N25Q128A_SUBSECTOR_SIZE 0); [lia|].
      rewrite s32_id, s64_id by lia.
      assert (I1' : issues w w1
                (erase_chunk_script (SUBSECTOR_ERASE_CMD, offset))).
      { unfold attempted in I1. rewrite F in I1. exact I1. }
      destruct (I1') as (Hst & Hi & _).
      destruct (IH fuel (total + N25Q128A_SUBSECTOR_SIZE)
                  (offset + N25Q128A_SUBSECTOR_SIZE) w1)
        as (res & w' & E' & I' & R'); try lia.
      rewrite Hst, Hi, erase_chunk_script_length in I', R'.
      exists res, w'. split; [exact E'|]. split.
      * eapply issues_seq;
          [apply erase_chunk_script_length | exact F | exact I1' | exact I'].
      * rewrite first_failure_app, F.
        destruct (first_failure (hal_status w) (issued w + 4) (4 * k));
          cbn [option_map]; [exact R'|].
        rewrite R'. f_equal; lia.
Qed.

(** ** The erase entry point *)

Lemma issues_locked w w1 cs :
  issues (record_event (Kernel k_mutex_acquire) w) w1 cs ->
  issues w (record_event (Kernel k_mutex_release) w1) cs.
Proof.
  intros I.
  pose proof (issues_trans _ _ _ _ _
                (issues_trans _ _ _ _ _
                   (issues_kernel w k_mutex_acquire) I)
                (issues_kernel w1 k_mutex_release)) as I'.
  cbn [app] in I'. now rewrite app_nil_r in I'.
Qed.

Lemma ceil_div_bounds (rest unit : Z) :
  0 <= rest -> 0 < unit ->
  let q := (rest + unit - 1) / unit in
  0 <= q /\ q * unit - unit < rest <= q * unit /\ q <= rest.
Proof.
  intros Hr Hu q.
  pose proof (Z.div_mod (rest + unit - 1) unit ltac:(lia)) as Hdm.
  pose proof (Z.mod_pos_bound (rest + unit - 1) unit Hu) as Hm.
  fold q in Hdm.
  assert (Hq : 0 <= q) by (apply Z.div_pos; lia).
  repeat split; try nia.
Qed.

Lemma spiflash_bdev_erase_run {OK : PlatformOk P}
  (fuel : nat) (device : bdev_t) (offset len : Z) (w : world) :
  let trimmed := bio_trim_range device offset len in
  0 < trimmed ->
  0 <= offset ->
  offset + trimmed <= N25Q128A_FLASH_SIZE ->
  (length (erase_plan offset trimmed) < fuel)%nat ->
  exists r w',
    spiflash_bdev_erase fuel device offset len w = Some (r, w') /\
    issues w w'
      (firstn (attempted (hal_status w) (issued w)
                 (4 * length (erase_plan offset trimmed)))
         (flat_map erase_chunk_script (erase_plan offset trimmed))) /\
    match first_failure (hal_status w) (issued w)
            (4 * length (erase_plan offset trimmed)) with
    | None => r = plan_bytes offset trimmed
    | Some _ => r < 0
    end.
Proof.
  intros L HL Ho Hext Hfuel.
  pose proof sector_size_pos as Hsec. pose proof subsector_size_pos as Hsub.
  pose proof flash_size_fits as Hfit.
  unfold spiflash_bdev_erase. fold L.
  destruct (Z.eqb_spec L 0) as [E0|_]; [lia|].
  unfold mutex_acquire at 1.
  set (w0 := record_event (Kernel k_mutex_acquire) w).
  unfold erase_plan, plan_bytes.
  rewrite (andb_comm (offset =? 0)).
  destruct ((L =? N25Q128A_FLASH_SIZE) && (offset =? 0)) eqn:Ebulk.
  - (* the whole device *)
    unfold qspi_bulk_erase.
    destruct (qspi_erase_run 0 BULK_ERASE_CMD N25Q128A_FLASH_SIZE w0)
      as (r & w1 & E & I & R);
      [right; right; split; reflexivity | reflexivity|].
    rewrite E. unfold mutex_release, kernel.
    exists r, (record_event (Kernel k_mutex_release) w1).
    split; [reflexivity|].
    cbn [flat_map length Nat.mul Nat.add]. rewrite app_nil_r.
    split; [apply issues_locked; exact I | exact R].
  - (* sectors, then subsectors *)
    set (sectors := L / N25Q128A_SECTOR_SIZE).
    set (rest := L mod N25Q128A_SECTOR_SIZE).
    set (subsectors :=
           (rest + N25Q128A_SUBSECTOR_SIZE - 1) / N25Q128A_SUBSECTOR_SIZE).
    assert (Hnz : N25Q128A_SECTOR_SIZE <> 0) by lia.
    pose proof (Z.div_mod L N25Q128A_SECTOR_SIZE Hnz) as Hdm.
    pose proof (Z.mod_pos_bound L N25Q128A_SECTOR_SIZE Hsec) as Hrest.
    fold sectors rest in Hdm, Hrest.
    assert (Hsectors : 0 <= sectors) by (apply Z.div_pos; lia).
    destruct (ceil_div_bounds rest N25Q128A_SUBSECTOR_SIZE)
      as (Hq & Hcover & Hqle); [lia | lia|].
    fold subsectors in Hq, Hcover, Hqle.
    assert (Hfuel' : (Z.to_nat sectors + Z.to_nat subsectors < fuel)%nat).
    { unfold erase_plan in Hfuel.
      rewrite (andb_comm (offset =? 0)), Ebulk in Hfuel.
      now rewrite length_app, !chunks_length in Hfuel. }
    rewrite length_app, !chunks_length, flat_map_app.
    replace (4 * (Z.to_nat sectors + Z.to_nat subsectors))%nat
      with (4 * Z.to_nat sectors + 4 * Z.to_nat subsectors)%nat by lia.
    destruct (erase_sector_loop_run L (Z.to_nat sectors) fuel 0 offset w0)
      as (res & w1 & E & I & R); rewrite ?Z2Nat.id by lia; try lia.
    rewrite E.
    change (hal_status w0) with (hal_status w) in *.
    change (issued w0) with (issued w) in *.
    destruct (first_failure (hal_status w) (issued w) (4 * Z.to_nat sectors))
      as [j|] eqn:F.
    + (* a sector erase failed *)
      destruct R as (r & -> & Hr).
      unfold mutex_release, kernel.
      exists r, (record_event (Kernel k_mutex_release) w1).
      split; [reflexivity|]. split.
      * apply issues_locked.
        change (hal_status w) with (hal_status w0).
        change (issued w) with (issued w0).
        eapply issues_stop; [|exact F | exact I].
        now rewrite erase_script_length, chunks_length.
      * now rewrite first_failure_app, F.
    + subst res.
      assert (I1 : issues w0 w1
                (flat_map erase_chunk_script
                   (chunks SECTOR_ERASE_CMD N25Q128A_SECTOR_SIZE offset
                      (Z.to_nat sectors)))).
      { unfold attempted in I. rewrite F in I.
        rewrite firstn_all2 in I; [exact I|].
        rewrite erase_script_length, chunks_length. lia. }
      destruct (I1) as (Hst & Hi & _).
      rewrite erase_script_length, chunks_length in Hi.
      change (hal_status w0) with (hal_status w) in Hst.
      change (issued w0) with (issued w) in Hi.
      destruct (erase_subsector_loop_run L (Z.to_nat subsectors) fuel
                  (0 + sectors * N25Q128A_SECTOR_SIZE)
                  (offset + sectors * N25Q128A_SECTOR_SIZE) w1)
        as (res & w2 & E2 & I2 & R2); rewrite ?Z2Nat.id by lia; try lia.
      rewrite E2. rewrite Hst, Hi in I2, R2.
      assert (Iall : issues w0 w2
                (firstn
                   (attempted (hal_status w) (issued w)
                      (4 * Z.to_nat sectors + 4 * Z.to_nat subsectors))
                   (flat_map erase_chunk_script
                      (chunks SECTOR_ERASE_CMD N25Q128A_SECTOR_SIZE offset
                         (Z.to_nat sectors)) ++
                    flat_map erase_chunk_script
                      (chunks SUBSECTOR_ERASE_CMD N25Q128A_SUBSECTOR_SIZE
                         (offset + sectors * N25Q128A_SECTOR_SIZE)
                         (Z.to_nat subsectors))))).
      { change (hal_status w) with (hal_status w0).
        change (issued w) with (issued w0).
        eapply issues_seq; [| exact F | exact I1 | exact I2].
        now rewrite erase_script_length, chunks_length. }
      rewrite first_failure_app, F.
      destruct (first_failure (hal_status w)
                  (issued w + 4 * Z.to_nat sectors)
                  (4 * Z.to_nat subsectors)) as [i|]; cbn [option_map].
      * destruct R2 as (r & -> & Hr).
        unfold mutex_release, kernel.
        exists r, (record_event (Kernel k_mutex_release) w2).
        split; [reflexivity|].
        split; [apply issues_locked; exact Iall | exact Hr].
      * subst res. unfold mutex_release, kernel.
        eexists _, (record_event (Kernel k_mutex_release) w2).
        split; [reflexivity|].
        split; [apply issues_locked; exact Iall | lia].
Qed.

Lemma attempted_all_ok (w : world) (cs : list hal_call) :
  all_ok w ->
  firstn (attempted (hal_status w) (issued w) (length cs)) cs = cs.
Proof.
  intros Hok. unfold attempted.
  rewrite (first_failure_all_ok w _ Hok). apply firstn_all.
Qed.

(** C1.  An erase request whose trimmed length is positive works
    through the chunks of [erase_plan], in order, and stops only at a
    transaction that fails: one bulk erase when the request is the whole
    device from offset 0; otherwise sector erases at successive offsets,
    as many as whole sectors fit the length, followed by subsector
    erases for the rest.  With hardware that answers every call the
    whole plan is issued; in particular [erase (0, flash size)] is one
    bulk erase, [erase (0, sector)] one sector erase, and
    [erase (0, sector + subsector)] one sector erase at 0 followed by
    one subsector erase at the sector size. *)
Theorem spiflash_bdev_erase_granularity {OK : PlatformOk P}
  (fuel : nat) (device : bdev_t) (offset len : Z) (w : world) :
  let trimmed := bio_trim_range device offset len in
  0 < trimmed ->
  0 <= offset ->
  offset + trimmed <= N25Q128A_FLASH_SIZE ->
  (length (erase_plan offset trimmed) < fuel)%nat ->
  exists (r : Z) (w' : world),
    spiflash_bdev_erase fuel device offset len w = Some (r, w') /\
    (exists k : nat,
        transactions (trace w') =
          transactions (trace w) ++
          firstn k (flat_map erase_chunk_script (erase_plan offset trimmed))) /\
    (all_ok w ->
     transactions (trace w') =
       transactions (trace w) ++
       flat_map erase_chunk_script (erase_plan offset trimmed) /\
     (offset = 0 -> trimmed = N25Q128A_FLASH_SIZE ->
      transactions (trace w') =
        transactions (trace w) ++ erase_chunk_script (BULK_ERASE_CMD, 0)) /\
     (offset = 0 -> trimmed = N25Q128A_SECTOR_SIZE ->
      N25Q128A_SECTOR_SIZE < N25Q128A_FLASH_SIZE ->
      transactions (trace w') =
        transactions (trace w) ++ erase_chunk_script (SECTOR_ERASE_CMD, 0)) /\
     (offset = 0 ->
      trimmed = N25Q128A_SECTOR_SIZE + N25Q128A_SUBSECTOR_SIZE ->
      N25Q128A_SUBSECTOR_SIZE < N25Q128A_SECTOR_SIZE ->
      N25Q128A_SECTOR_SIZE + N25Q128A_SUBSECTOR_SIZE < N25Q128A_FLASH_SIZE ->
      transactions (trace w') =
        transactions (trace w) ++
        erase_chunk_script (SECTOR_ERASE_CMD, 0) ++
        erase_chunk_script (SUBSECTOR_ERASE_CMD, N25Q128A_SECTOR_SIZE))).
Proof.
  intros L HL Ho Hext Hfuel.
  pose proof sector_size_pos as Hsec. pose proof subsector_size_pos as Hsub.
  destruct (spiflash_bdev_erase_run fuel device offset len w HL Ho Hext Hfuel)
    as (r & w' & E & I & _).
  fold L in E, I.
  exists r, w'. split; [exact E|].
  split; [eexists; exact (proj2 (proj2 I))|].
  intros Hok.
  rewrite <- erase_script_length, attempted_all_ok in I by exact Hok.
  destruct I as (_ & _ & T).
  split; [exact T|].
  repeat split.
  - intros -> HF. rewrite T. f_equal. unfold erase_plan.
    rewrite HF, !Z.eqb_refl. cbn [andb flat_map]. apply app_nil_r.
  - intros -> HS Hlt. rewrite T. f_equal. unfold erase_plan.
    rewrite HS.
    destruct (Z.eqb_spec N25Q128A_SECTOR_SIZE N25Q128A_FLASH_SIZE); [lia|].
    rewrite andb_false_r, Z.div_same, Z.mod_same by lia.
    rewrite (Z.div_small (0 + N25Q128A_SUBSECTOR_SIZE - 1)) by lia.
    change (Z.to_nat 1) with 1%nat. change (Z.to_nat 0) with 0%nat.
    unfold chunks. cbn [seq map app flat_map Z.of_nat].
    rewrite ?Z.mul_0_l, ?Z.mul_1_l, ?Z.add_0_l, ?Z.add_0_r, ?app_nil_r.
    reflexivity.
  - intros -> HS Hlt Hlt2. rewrite T. f_equal. unfold erase_plan.
    rewrite HS.
    destruct (Z.eqb_spec (N25Q128A_SECTOR_SIZE + N25Q128A_SUBSECTOR_SIZE)
                N25Q128A_FLASH_SIZE); [lia|].
    rewrite andb_false_r.
    assert (Hd : (N25Q128A_SECTOR_SIZE + N25Q128A_SUBSECTOR_SIZE)
                 / N25Q128A_SECTOR_SIZE = 1).
    { symmetry. apply (Z.div_unique _ _ 1 N25Q128A_SUBSECTOR_SIZE); lia. }
    assert (Hm : (N25Q128A_SECTOR_SIZE + N25Q128A_SUBSECTOR_SIZE)
                 mod N25Q128A_SECTOR_SIZE = N25Q128A_SUBSECTOR_SIZE).
    { symmetry. apply (Z.mod_unique _ _ 1 N25Q128A_SUBSECTOR_SIZE); lia. }
    assert (Hc : (N25Q128A_SUBSECTOR_SIZE + N25Q128A_SUBSECTOR_SIZE - 1)
                 / N25Q128A_SUBSECTOR_SIZE = 1).
    { symmetry.
      apply (Z.div_unique _ _ 1 (N25Q128A_SUBSECTOR_SIZE - 1)); lia. }
    rewrite Hd, Hm, Hc.
    change (Z.to_nat 1) with 1%nat. change (Z.to_nat 0) with 0%nat.
    unfold chunks. cbn [seq map app flat_map Z.of_nat].
    rewrite ?Z.mul_0_l, ?Z.mul_1_l, ?Z.add_0_l, ?Z.add_0_r, ?app_nil_r.
    reflexivity.
Qed.

(** C10.  An erase request that does not take the bulk path returns a
    value [r] with [r < 0] (some chunk failed) or a byte count that is a
    sum of whole sectors and subsectors, at least the trimmed length and
    less than one subsector above it.  With hardware that answers every
    call it is the latter. *)
Theorem spiflash_bdev_erase_rounds_up {OK : PlatformOk P}
  (fuel : nat) (device : bdev_t) (offset len : Z) (w : world) :
  let trimmed := bio_trim_range device offset len in
  0 < trimmed ->
  0 <= offset ->
  offset + trimmed <= N25Q128A_FLASH_SIZE ->
  ~ (offset = 0 /\ trimmed = N25Q128A_FLASH_SIZE) ->
  (length (erase_plan offset trimmed) < fuel)%nat ->
  exists (r : Z) (w' : world),
    spiflash_bdev_erase fuel device offset len w = Some (r, w') /\
    (r < 0 \/
     exists a b : Z,
       0 <= a /\ 0 <= b /\
       r = a * N25Q128A_SECTOR_SIZE + b * N25Q128A_SUBSECTOR_SIZE /\
       trimmed <= r < trimmed + N25Q128A_SUBSECTOR_SIZE) /\
    (all_ok w -> 0 <= r).
Proof.
  intros L HL Ho Hext Hnb Hfuel.
  pose proof sector_size_pos as Hsec. pose proof subsector_size_pos as Hsub.
  destruct (spiflash_bdev_erase_run fuel device offset len w HL Ho Hext Hfuel)
    as (r & w' & E & _ & R).
  fold L in E, R.
  exists r, w'. split; [exact E|].
  assert (Hnz : N25Q128A_SECTOR_SIZE <> 0) by lia.
  pose proof (Z.div_mod L N25Q128A_SECTOR_SIZE Hnz) as Hdm.
  pose proof (Z.mod_pos_bound L N25Q128A_SECTOR_SIZE Hsec) as Hrest.
  assert (Hsectors : 0 <= L / N25Q128A_SECTOR_SIZE)
    by (apply Z.div_pos; lia).
  destruct (ceil_div_bounds (L mod N25Q128A_SECTOR_SIZE)
              N25Q128A_SUBSECTOR_SIZE) as (Hq & Hcover & _); [lia | lia|].
  assert (Hbytes :
    plan_bytes offset L =
    L / N25Q128A_SECTOR_SIZE * N25Q128A_SECTOR_SIZE +
    (L mod N25Q128A_SECTOR_SIZE + N25Q128A_SUBSECTOR_SIZE - 1)
      / N25Q128A_SUBSECTOR_SIZE * N25Q128A_SUBSECTOR_SIZE).
  { unfold plan_bytes.
    destruct (Z.eqb_spec offset 0); destruct (Z.eqb_spec L N25Q128A_FLASH_SIZE);
      cbn [andb]; tauto. }
  destruct (first_failure (hal_status w) (issued w)
              (4 * length (erase_plan offset L))) eqn:F.
  - split; [left; exact R|].
    intros Hok. rewrite (first_failure_all_ok w _ Hok) in F. discriminate.
  - rewrite Hbytes in R. split.
    + right. do 2 eexists. split; [exact Hsectors|].
      split; [exact Hq|]. split; [exact R|]. nia.
    + intros _. nia.
Qed.

(** ** Initialisation *)

(** C9, as the driver has it.  Once the mutex is acquired the
    initialisation returns success on every path, whatever the
    controller answers to the de-initialisation, the initialisation, the
    memory reset or the dummy-cycle configuration.  A failed
    acquisition of the mutex is the one failure reported: its status is
    returned and the controller is not touched. *)
Theorem qspi_flash_init_status (w : world) :
  (acquire_status w = NO_ERROR -> fst (qspi_flash_init w) = NO_ERROR) /\
  (acquire_status w <> NO_ERROR ->
   fst (qspi_flash_init w) = acquire_status w /\
   transactions (trace (snd (qspi_flash_init w))) = transactions (trace w)).
Proof.
  unfold qspi_flash_init. run_driver. split.
  - intros ->. rewrite Z.eqb_refl. cbn [negb].
    repeat match goal with
           | |- context [if negb (?c =? ?d) then _ else _] =>
               destruct (negb (c =? d)); [reflexivity|]
           | |- context [let (_, _) := ?m ?x in _] =>
               destruct (m x)
           end.
    reflexivity.
  - intros Hne. destruct (Z.eqb_spec (acquire_status w) NO_ERROR);
      [contradiction|].
    cbn [negb fst snd trace record_event]. split; [reflexivity|].
    rewrite !transactions_app. cbn [transactions]. now rewrite !app_nil_r.
Qed.

(** * Further properties of the driver *)

(** ** Logs only grow *)

Lemma record_events_app (a b : list event) (w : world) :
  record_events (a ++ b) w = record_events b (record_events a w).
Proof. unfold record_events. apply fold_left_app. Qed.

Lemma record_events_trace (evs : list event) (w : world) :
  trace (record_events evs w) = trace w ++ evs.
Proof.
  revert w. induction evs as [|e evs IH]; intros w.
  - simpl. now rewrite app_nil_r.
  - change (record_events (e :: evs) w)
      with (record_events evs (record_event e w)).
    rewrite IH. simpl. now rewrite <- app_assoc.
Qed.

Lemma locking_app (t1 t2 : list event) :
  locking (t1 ++ t2) = locking t1 ++ locking t2.
Proof.
  induction t1 as [|[c|[]] t1 IH]; simpl; rewrite ?IH; reflexivity.
Qed.

Lemma quiet_ret {A : Type} (a : A) : quiet (ret a).
Proof. intros w. exists []. split; [|split]; reflexivity. Qed.

Lemma quiet_bind {A C : Type} (m : M A) (k : A -> M C) :
  quiet m -> (forall a, quiet (k a)) -> quiet (bind m k).
Proof.
  intros Hm Hk w. unfold bind.
  destruct (Hm w) as (e1 & E1 & L1 & R1). destruct (m w) as [a w1].
  cbn [snd] in E1. subst w1.
  destruct (Hk a (record_events e1 w)) as (e2 & E2 & L2 & R2).
  exists (e1 ++ e2).
  rewrite record_events_app, locking_app, registered_app, L1, L2, R1, R2.
  split; [exact E2 | split; reflexivity].
Qed.

Lemma quiet_hal (c : hal_call) : quiet (hal c).
Proof. intros w. exists [Hal c]. split; [|split]; reflexivity. Qed.

Lemma quiet_event_wait (e : event_id) : quiet (event_wait e).
Proof.
  intros w. exists [Kernel (k_event_wait e)]. split; [|split]; reflexivity.
Qed.

Lemma quiet_Receive (timeout : Z) : quiet (HAL_QSPI_Receive timeout).
Proof.
  intros w. exists [Hal (hw_Receive timeout)]. split; [|split]; reflexivity.
Qed.

Ltac quiet_steps :=
  cbv zeta;
  repeat first
    [ apply quiet_ret
    | apply quiet_hal
    | apply quiet_event_wait
    | apply quiet_Receive
    | assumption
    | apply quiet_bind; [|intro]
    | match goal with
      | |- quiet (if ?c then _ else _) => destruct c
      | |- quiet (match ?x with _ => _ end) => destruct x
      end ].

Lemma quiet_write_enable : quiet qspi_write_enable_unsafe.
Proof. unfold qspi_write_enable_unsafe. quiet_steps. Qed.

Lemma quiet_mem_ready : quiet qspi_auto_polling_mem_ready_unsafe.
Proof. unfold qspi_auto_polling_mem_ready_unsafe. quiet_steps. Qed.

Lemma quiet_cmd (c : QSPI_CommandTypeDef) : quiet (qspi_cmd c).
Proof. unfold qspi_cmd. quiet_steps. Qed.

Lemma quiet_tx (buf : Z) : quiet (qspi_tx buf).
Proof. unfold qspi_tx. quiet_steps. Qed.

Lemma quiet_rx (buf : Z) : quiet (qspi_rx buf).
Proof. unfold qspi_rx. quiet_steps. Qed.

Lemma quiet_write_page (addr data : Z) :
  quiet (qspi_write_page_unsafe addr data).
Proof.
  pose proof quiet_write_enable. pose proof quiet_mem_ready.
  pose proof (quiet_tx data).
  unfold qspi_write_page_unsafe. quiet_steps.
Qed.

Lemma quiet_erase (block_addr instruction : Z) :
  quiet (qspi_erase block_addr instruction).
Proof.
  pose proof quiet_write_enable. pose proof quiet_mem_ready.
  unfold qspi_erase. quiet_steps; apply quiet_cmd.
Qed.

Lemma quiet_reset_memory : quiet qspi_reset_memory_unsafe.
Proof.
  pose proof quiet_mem_ready.
  unfold qspi_reset_memory_unsafe. quiet_steps; apply quiet_cmd.
Qed.

Lemma quiet_dummy_cycles : quiet qspi_dummy_cycles_cfg_unsafe.
Proof.
  pose proof quiet_write_enable.
  unfold qspi_dummy_cycles_cfg_unsafe. quiet_steps.
Qed.

Lemma quiet_write_block_loop (count : nat) :
  forall block buf total, quiet (write_block_loop count block buf total).
Proof.
  induction count as [|count IH]; intros block buf total;
    cbn [write_block_loop].
  - apply quiet_ret.
  - apply quiet_bind; [apply quiet_write_page|].
    intros r. destruct (r <? 0); [apply quiet_ret | apply IH].
Qed.

(** ** The read engine *)

Lemma s32_u32_id (e : Z) : - 2 ^ 31 <= e < 2 ^ 31 -> s32 (u32 e) = e.
Proof.
  intros H. unfold s32, u32.
  rewrite Z.add_mod_idemp_l by lia. rewrite Z.mod_small; lia.
Qed.

Ltac close_window :=
  unfold locked_window, read_script;
  cbn [trace record_event fst snd];
  rewrite <- ?app_assoc; cbn [app];
  repeat split; reflexivity.

Ltac exists_world mid :=
  eexists; exists mid;
  split; [reflexivity | split; [close_window | reflexivity]].

Lemma spiflash_bdev_read_run (device : bdev_t) (buf offset len : Z)
  (w : world) :
  let trimmed := bio_trim_range device offset len in
  trimmed <> 0 ->
  exists w' mid,
    spiflash_bdev_read device buf offset len w =
      (s32 match first_failure (hal_status w) (issued w) 2 with
           | None => trimmed
           | Some j =>
               u32 (hal_error_to_status (hal_status w (issued w + j)%nat))
           end, w') /\
    locked_window w w' mid /\
    transactions mid =
      firstn (attempted (hal_status w) (issued w) 2)
        (read_script (u32 offset) trimmed buf).
Proof.
  intros L HL. unfold spiflash_bdev_read, qspi_rx, attempted. fold L.
  destruct (Z.eqb_spec L 0); [contradiction|].
  run_driver. cbn [first_failure].
  destruct (hal_status w (issued w) =? HAL_OK); run_driver;
    cbn [option_map].
  - destruct (hal_status w (S (issued w)) =? HAL_OK); run_driver;
      cbn [option_map]; norm_index;
      exists_world
        [ Hal (hw_Command (read_command (u32 offset) L)
                 HAL_QPSI_TIMEOUT_DEFAULT_VALUE);
          Hal (hw_Receive_IT buf); Kernel (k_event_wait rx_event) ].
  - norm_index.
    exists_world
      [ Hal (hw_Command (read_command (u32 offset) L)
               HAL_QPSI_TIMEOUT_DEFAULT_VALUE) ].
Qed.

(** X1.  A read whose trimmed length is positive takes the mutex,
    issues one quad-read command carrying the whole trimmed length (no
    splitting) followed by one reception, and releases the mutex on
    every path.  It stops after the first transaction that fails; the
    reception is not issued when the command fails.  The value returned
    is the trimmed length, or the kernel code of the failure, which
    survives the passage through the unsigned [retcode]. *)
Theorem spiflash_bdev_read_single_transaction {OK : PlatformOk P}
  (device : bdev_t) (buf offset len : Z) (w : world) :
  let trimmed := bio_trim_range device offset len in
  0 < trimmed < 2 ^ 31 ->
  - 2 ^ 31 <= ERR_GENERIC /\ - 2 ^ 31 <= ERR_BUSY /\
  - 2 ^ 31 <= ERR_TIMED_OUT ->
  exists (r : Z) (w' : world) (mid : list event),
    spiflash_bdev_read device buf offset len w = (r, w') /\
    locked_window w w' mid /\
    match first_failure (hal_status w) (issued w) 2 with
    | None =>
        r = trimmed /\
        transactions mid = read_script (u32 offset) trimmed buf
    | Some j =>
        r = hal_error_to_status (hal_status w (issued w + j)%nat) /\
        r < 0 /\
        transactions mid =
          firstn (S j) (read_script (u32 offset) trimmed buf)
    end.
Proof.
  intros L HL (Hg & Hb & Ht).
  destruct (spiflash_bdev_read_run device buf offset len w)
    as (w' & mid & E & Hwin & T); [fold L; lia|].
  fold L in E, T. unfold attempted in T.
  eexists _, w', mid. split; [exact E|]. split; [exact Hwin|].
  destruct (first_failure (hal_status w) (issued w) 2) as [j|] eqn:F.
  - pose proof (first_failure_Some _ _ _ _ F) as [_ Hne].
    pose proof (hal_error_to_status_neg _ Hne) as Hneg.
    assert (Hfit : - 2 ^ 31
                   <= hal_error_to_status (hal_status w (issued w + j)%nat)).
    { destruct (hal_error_to_status_failure _ Hne) as [->|[->| ->]];
        assumption. }
    rewrite s32_u32_id by lia. repeat split; assumption.
  - rewrite s32_id by lia. split; [reflexivity | exact T].
Qed.

(** X2.  A block read converts blocks to bytes with the device's block
    shift and hands the byte range to the read engine: with hardware
    that answers, [count] trimmed blocks from [block] on are fetched by
    one quad read of [count * 2^shift] bytes at address
    [block * 2^shift], and that byte count is returned. *)
Theorem spiflash_bdev_read_block_bytes
  (device : bdev_t) (buf block count : Z) (w : world) :
  let c := bio_trim_block_range device block count in
  let unit := 2 ^ block_shift device in
  0 <= block_shift device ->
  0 <= block ->
  0 < c ->
  (block + c) * unit < 2 ^ 31 ->
  bio_trim_range device (block * unit) (c * unit) = c * unit ->
  all_ok w ->
  exists (w' : world) (mid : list event),
    spiflash_bdev_read_block device buf block count w = (c * unit, w') /\
    locked_window w w' mid /\
    transactions mid = read_script (block * unit) (c * unit) buf.
Proof.
  intros c unit Hs Hb Hc Hfit Htrim Hok.
  assert (Hu : 0 < unit) by (apply Z.pow_pos_nonneg; lia).
  assert (Hbu : 0 <= block * unit <= (block + c) * unit) by nia.
  assert (Hcu : 0 < c * unit <= (block + c) * unit) by nia.
  unfold spiflash_bdev_read_block. fold c.
  destruct (Z.eqb_spec c 0); [lia|].
  rewrite !Z.shiftl_mul_pow2 by exact Hs. fold unit.
  rewrite !u32_id by lia.
  destruct (spiflash_bdev_read_run device buf (block * unit) (c * unit) w)
    as (w' & mid & E & Hwin & T); [rewrite Htrim; lia|].
  rewrite Htrim in E, T. unfold attempted in T.
  rewrite (first_failure_all_ok w 2 Hok) in E, T.
  rewrite s32_id in E by lia. rewrite u32_id in T by lia.
  exists w', mid. split; [exact E|]. split; [exact Hwin | exact T].
Qed.

(** ** The mutex brackets every hardware access *)

(** X3.  A block write whose trimmed count is not zero takes the mutex
    once and releases it once, as the last thing it does, whether the
    pages succeed or one of them fails; every transaction it issues
    lies between the two. *)
Theorem spiflash_bdev_write_block_locked
  (device : bdev_t) (buf block count : Z) (w : world) :
  bio_trim_block_range device block count <> 0 ->
  exists mid : list event,
    locked_window w
      (snd (spiflash_bdev_write_block device buf block count w)) mid.
Proof.
  intros Hc. unfold spiflash_bdev_write_block.
  destruct (Z.eqb_spec (bio_trim_block_range device block count) 0);
    [contradiction|].
  run_driver.
  destruct (quiet_write_block_loop
              (Z.to_nat (bio_trim_block_range device block count))
              block buf 0 (record_event (Kernel k_mutex_acquire) w))
    as (evs & E & Hl & _).
  destruct (write_block_loop _ _ _ _ _) as [r w1]. cbn [snd] in E. subst w1.
  exists evs. split; [|exact Hl].
  unfold kernel. cbn [snd trace record_event]. rewrite record_events_trace.
  cbn [trace record_event]. rewrite <- !app_assoc. reflexivity.
Qed.

Lemma erase_sector_loop_quiet (fuel : nat) :
  forall len total offset w res w',
    erase_sector_loop fuel len total offset w = Some (res, w') ->
    exists evs, w' = record_events evs w /\ locking evs = [].
Proof.
  induction fuel as [|fuel IH]; intros len total offset w res w';
    cbn [erase_sector_loop]; [discriminate|].
  destruct (s32 (s32 len - total) >=? N25Q128A_SECTOR_SIZE).
  - unfold qspi_erase_sector.
    destruct (quiet_erase (u32 offset) SECTOR_ERASE_CMD w)
      as (e1 & E1 & L1 & _).
    destruct (qspi_erase (u32 offset) SECTOR_ERASE_CMD w) as [erased w1].
    cbn [snd] in E1. subst w1.
    destruct (erased <? 0).
    + intros [= <- <-]. eauto.
    + intros H. destruct (IH _ _ _ _ _ _ H) as (e2 & -> & L2).
      exists (e1 ++ e2). rewrite record_events_app, locking_app, L1, L2.
      split; reflexivity.
  - intros [= <- <-]. exists []. split; reflexivity.
Qed.

Lemma erase_subsector_loop_quiet (fuel : nat) :
  forall len total offset w res w',
    erase_subsector_loop fuel len total offset w = Some (res, w') ->
    exists evs, w' = record_events evs w /\ locking evs = [].
Proof.
  induction fuel as [|fuel IH]; intros len total offset w res w';
    cbn [erase_subsector_loop]; [discriminate|].
  destruct (total <? s32 len).
  - unfold qspi_erase_subsector.
    destruct (quiet_erase (u32 offset) SUBSECTOR_ERASE_CMD w)
      as (e1 & E1 & L1 & _).
    destruct (qspi_erase (u32 offset) SUBSECTOR_ERASE_CMD w) as [erased w1].
    cbn [snd] in E1. subst w1.
    destruct (erased <? 0).
    + intros [= <- <-]. eauto.
    + intros H. destruct (IH _ _ _ _ _ _ H) as (e2 & -> & L2).
      exists (e1 ++ e2). rewrite record_events_app, locking_app, L1, L2.
      split; reflexivity.
  - intros [= <- <-]. exists []. split; reflexivity.
Qed.

Lemma spiflash_bdev_erase_window (fuel : nat) (device : bdev_t)
  (offset len : Z) (w : world) (r : Z) (w' : world) :
  bio_trim_range device offset len <> 0 ->
  spiflash_bdev_erase fuel device offset len w = Some (r, w') ->
  exists mid, locked_window w w' mid.
Proof.
  intros HL. unfold spiflash_bdev_erase.
  destruct (Z.eqb_spec (bio_trim_range device offset len) 0);
    [contradiction|].
  unfold mutex_acquire at 1, mutex_release, kernel.
  set (w0 := record_event (Kernel k_mutex_acquire) w).
  assert (Hclose : forall evs,
            locking evs = [] ->
            exists mid,
              locked_window w
                (record_event (Kernel k_mutex_release)
                   (record_events evs w0)) mid).
  { intros evs Hl. exists evs. split; [|exact Hl].
    cbn [trace record_event]. rewrite record_events_trace.
    cbn [trace record_event w0]. rewrite <- !app_assoc. reflexivity. }
  destruct ((bio_trim_range device offset len =? N25Q128A_FLASH_SIZE)
            && (offset =? 0)).
  - unfold qspi_bulk_erase.
    destruct (quiet_erase 0 BULK_ERASE_CMD w0) as (e1 & E1 & L1 & _).
    destruct (qspi_erase 0 BULK_ERASE_CMD w0) as [erased w1].
    cbn [snd] in E1. subst w1. intros [= <- <-]. now apply Hclose.
  - destruct (erase_sector_loop fuel _ 0 offset w0) as [[res w1]|] eqn:E1;
      [|discriminate].
    destruct (erase_sector_loop_quiet _ _ _ _ _ _ _ E1) as (e1 & -> & L1).
    destruct res as [t|t o].
    + intros [= <- <-]. now apply Hclose.
    + destruct (erase_subsector_loop fuel _ t o _) as [[res w2]|] eqn:E2;
        [|discriminate].
      destruct (erase_subsector_loop_quiet _ _ _ _ _ _ _ E2)
        as (e2 & -> & L2).
      rewrite <- record_events_app.
      assert (Hl : locking (e1 ++ e2) = [])
        by now rewrite locking_app, L1, L2.
      destruct res; intros [= <- <-]; now apply Hclose.
Qed.

(** X4.  An erase whose trimmed length is positive returns, and on the
    way takes the mutex once and releases it once, as the last thing it
    does, on the bulk path, after the loops, and on the path of a
    failed chunk alike; every transaction it issues lies between the
    two. *)
Theorem spiflash_bdev_erase_locked {OK : PlatformOk P}
  (fuel : nat) (device : bdev_t) (offset len : Z) (w : world) :
  let trimmed := bio_trim_range device offset len in
  0 < trimmed ->
  0 <= offset ->
  offset + trimmed <= N25Q128A_FLASH_SIZE ->
  (length (erase_plan offset trimmed) < fuel)%nat ->
  exists (r : Z) (w' : world) (mid : list event),
    spiflash_bdev_erase fuel device offset len w = Some (r, w') /\
    locked_window w w' mid.
Proof.
  intros L HL Ho Hext Hfuel.
  destruct (spiflash_bdev_erase_run fuel device offset len w HL Ho Hext Hfuel)
    as (r & w' & E & _).
  destruct (spiflash_bdev_erase_window fuel device offset len w r w')
    as (mid & Hwin); [fold L; lia | exact E|].
  exists r, w', mid. split; [exact E | exact Hwin].
Qed.

(** ** Erase chunks *)

(** X5.  An erase with an instruction that is none of the three erase
    opcodes takes the default branch of the switch: it returns the
    invalid-argument error and leaves the world as it was, whatever the
    address. *)
Theorem qspi_erase_unknown_instruction
  (block_addr instruction : Z) (w : world) :
  instruction <> SUBSECTOR_ERASE_CMD ->
  instruction <> SECTOR_ERASE_CMD ->
  instruction <> BULK_ERASE_CMD ->
  qspi_erase block_addr instruction w = (ERR_INVALID_ARGS, w).
Proof.
  intros H1 H2 H3. unfold qspi_erase.
  destruct (Z.eqb_spec instruction BULK_ERASE_CMD); [contradiction|].
  destruct (Z.eqb_spec instruction SUBSECTOR_ERASE_CMD); [contradiction|].
  destruct (Z.eqb_spec instruction SECTOR_ERASE_CMD); [contradiction|].
  reflexivity.
Qed.

Lemma qspi_erase_shape {OK : PlatformOk P} (block_addr instruction size : Z) :
  erase_unit instruction size ->
  (instruction = BULK_ERASE_CMD -> block_addr = 0) ->
  (instruction =? BULK_ERASE_CMD) && negb (block_addr =? 0) = false /\
  (if instruction =? SUBSECTOR_ERASE_CMD
   then Some (N25Q128A_SUBSECTOR_SIZE, QSPI_ADDRESS_1_LINE)
   else if instruction =? SECTOR_ERASE_CMD
   then Some (N25Q128A_SECTOR_SIZE, QSPI_ADDRESS_1_LINE)
   else if instruction =? BULK_ERASE_CMD
   then Some (N25Q128A_FLASH_SIZE, QSPI_ADDRESS_NONE)
   else None) =
  Some (size, if instruction =? BULK_ERASE_CMD then QSPI_ADDRESS_NONE
              else QSPI_ADDRESS_1_LINE).
Proof.
  intros Hunit Hbulk.
  destruct erase_cmds_distinct as (D1 & D2 & D3). split.
  - destruct (Z.eqb_spec instruction BULK_ERASE_CMD) as [E|E];
      [|reflexivity].
    rewrite (Hbulk E). reflexivity.
  - destruct Hunit as [[-> ->]|[[-> ->]|[-> ->]]].
    + rewrite Z.eqb_refl.
      destruct (Z.eqb_spec SUBSECTOR_ERASE_CMD BULK_ERASE_CMD);
        [contradiction | reflexivity].
    + destruct (Z.eqb_spec SECTOR_ERASE_CMD SUBSECTOR_ERASE_CMD);
        [congruence|].
      rewrite Z.eqb_refl.
      destruct (Z.eqb_spec SECTOR_ERASE_CMD BULK_ERASE_CMD);
        [contradiction | reflexivity].
    + destruct (Z.eqb_spec BULK_ERASE_CMD SUBSECTOR_ERASE_CMD);
        [congruence|].
      destruct (Z.eqb_spec BULK_ERASE_CMD SECTOR_ERASE_CMD);
        [congruence|].
      now rewrite Z.eqb_refl.
Qed.

(** X6.  One erase chunk is the write-enable handshake, the erase
    command and the wait for the memory, cut right after the first
    transaction that fails.  It returns the size of the unit erased when
    all four succeed.  A failed handshake or wait is reported with the
    translated HAL status, but a failed erase command is always reported
    as the generic error: busy and timeout are not told apart there. *)
Theorem qspi_erase_failure_codes {OK : PlatformOk P}
  (block_addr instruction size : Z) (w : world) :
  erase_unit instruction size ->
  (instruction = BULK_ERASE_CMD -> block_addr = 0) ->
  exists (r : Z) (w' : world),
    qspi_erase block_addr instruction w = (r, w') /\
    match first_failure (hal_status w) (issued w) 4 with
    | None =>
        r = size /\
        transactions (trace w') =
          transactions (trace w) ++
          erase_chunk_script (instruction, block_addr)
    | Some j =>
        r = (if Nat.eqb j 2 then ERR_GENERIC
             else hal_error_to_status (hal_status w (issued w + j)%nat)) /\
        r < 0 /\
        transactions (trace w') =
          transactions (trace w) ++
          firstn (S j) (erase_chunk_script (instruction, block_addr))
    end.
Proof.
  intros Hunit Hbulk.
  pose proof err_generic_neg as Hg.
  destruct (qspi_erase_shape block_addr instruction size Hunit Hbulk)
    as (Hguard & Hshape).
  unfold qspi_erase. rewrite Hguard, Hshape.
  unfold qspi_write_enable_unsafe, qspi_cmd,
    qspi_auto_polling_mem_ready_unsafe.
  run_driver. cbn [first_failure].
  branch_on_status w; norm_index; do 2 eexists;
    (split; [reflexivity|]); cbn [Nat.eqb];
    repeat split;
    try reflexivity; try lia;
    try (apply hal_error_to_status_neg, Z.eqb_neq; assumption);
    close_issues.
Qed.

(** X7.  An erase request returns the bytes of its plan, which are at
    least the trimmed length and the flash size on the bulk path, when
    every transaction succeeds.  When one fails, nothing is issued after
    it and the value returned is negative: the chunks erased before the
    failure are not reported. *)
Theorem spiflash_bdev_erase_first_failure {OK : PlatformOk P}
  (fuel : nat) (device : bdev_t) (offset len : Z) (w : world) :
  let trimmed := bio_trim_range device offset len in
  0 < trimmed ->
  0 <= offset ->
  offset + trimmed <= N25Q128A_FLASH_SIZE ->
  (length (erase_plan offset trimmed) < fuel)%nat ->
  exists (r : Z) (w' : world),
    spiflash_bdev_erase fuel device offset len w = Some (r, w') /\
    let script := flat_map erase_chunk_script (erase_plan offset trimmed) in
    match first_failure (hal_status w) (issued w) (length script) with
    | None =>
        r = plan_bytes offset trimmed /\
        trimmed <= r /\
        (offset = 0 -> trimmed = N25Q128A_FLASH_SIZE ->
         r = N25Q128A_FLASH_SIZE) /\
        transactions (trace w') = transactions (trace w) ++ script
    | Some j =>
        r < 0 /\
        transactions (trace w') =
          transactions (trace w) ++ firstn (S j) script
    end.
Proof.
  intros L HL Ho Hext Hfuel.
  pose proof sector_size_pos as Hsec. pose proof subsector_size_pos as Hsub.
  destruct (spiflash_bdev_erase_run fuel device offset len w HL Ho Hext Hfuel)
    as (r & w' & E & (_ & _ & T) & R).
  fold L in E, T, R.
  exists r, w'. split; [exact E|]. cbv zeta.
  rewrite erase_script_length. unfold attempted in T.
  destruct (first_failure (hal_status w) (issued w)
              (4 * length (erase_plan offset L))) as [j|].
  - split; [exact R | exact T].
  - rewrite firstn_all2 in T by (rewrite erase_script_length; lia).
    split; [exact R|]. subst r.
    assert (Hnz : N25Q128A_SECTOR_SIZE <> 0) by lia.
    pose proof (Z.div_mod L N25Q128A_SECTOR_SIZE Hnz) as Hdm.
    pose proof (Z.mod_pos_bound L N25Q128A_SECTOR_SIZE Hsec) as Hrest.
    destruct (ceil_div_bounds (L mod N25Q128A_SECTOR_SIZE)
                N25Q128A_SUBSECTOR_SIZE) as (_ & Hcover & _); [lia | lia|].
    repeat split; [| |exact T]; unfold plan_bytes.
    + destruct ((offset =? 0) && (L =? N25Q128A_FLASH_SIZE)) eqn:Eb.
      * apply andb_prop in Eb. destruct Eb as [_ Eb].
        apply Z.eqb_eq in Eb. lia.
      * nia.
    + intros -> ->. now rewrite !Z.eqb_refl.
Qed.

(** X8.  The write-enable handshake returns success exactly when both
    the write-enable instruction and the poll for the latch succeeded.
    If the instruction fails the poll is not issued, and the value
    returned is the translation of the first failure, never success. *)
Theorem qspi_write_enable_unsafe_handshake {OK : PlatformOk P} (w : world) :
  exists (r : Z) (w' : world),
    qspi_write_enable_unsafe w = (r, w') /\
    match first_failure (hal_status w) (issued w) 2 with
    | None =>
        r = NO_ERROR /\
        transactions (trace w') =
          transactions (trace w) ++ write_enable_script
    | Some j =>
        r = hal_error_to_status (hal_status w (issued w + j)%nat) /\
        r <> NO_ERROR /\
        transactions (trace w') =
          transactions (trace w) ++ firstn (S j) write_enable_script
    end.
Proof.
  destruct (qspi_write_enable_unsafe_run w) as (w' & E & _ & _ & T).
  do 2 eexists. split; [exact E|].
  unfold outcome, attempted in *.
  destruct (first_failure (hal_status w) (issued w) 2) as [j|] eqn:F.
  - pose proof (first_failure_Some _ _ _ _ F) as [_ Hne].
    pose proof (hal_error_to_status_neg _ Hne).
    pose proof no_error_zero.
    repeat split; [lia | exact T].
  - split; [reflexivity | exact T].
Qed.

(** ** Initialisation, step by step *)

Lemma hal_error_twice_not_success {OK : PlatformOk P}
  (s : HAL_StatusTypeDef) :
  0 <= HAL_OK ->
  (s =? HAL_OK) = false ->
  (hal_error_to_status (hal_error_to_status s) =? NO_ERROR) = false.
Proof.
  intros H0 E. apply hal_error_not_success. apply Z.eqb_neq.
  apply Z.eqb_neq in E. pose proof (hal_error_to_status_neg s E). lia.
Qed.

Lemma hal_error_twice_generic {OK : PlatformOk P} (s : HAL_StatusTypeDef) :
  0 <= HAL_OK -> 0 <= HAL_BUSY -> 0 <= HAL_TIMEOUT ->
  s <> HAL_OK ->
  hal_error_to_status (hal_error_to_status s) = ERR_GENERIC.
Proof.
  intros H0 H1 H2 Hs. pose proof (hal_error_to_status_neg s Hs) as Hneg.
  unfold hal_error_to_status at 1.
  destruct (Z.eqb_spec (hal_error_to_status s) HAL_OK); [lia|].
  destruct (hal_error_to_status s =? HAL_ERROR); [reflexivity|].
  destruct (Z.eqb_spec (hal_error_to_status s) HAL_BUSY); [lia|].
  destruct (Z.eqb_spec (hal_error_to_status s) HAL_TIMEOUT); [lia|].
  reflexivity.
Qed.

Ltac branch_on_status2 w :=
  repeat (first
    [ rewrite Z.eqb_refl
    | rewrite hal_error_twice_not_success by assumption
    | rewrite hal_error_not_success by assumption
    | match goal with
      | |- context [hal_status w ?n =? HAL_OK] =>
          destruct (hal_status w n =? HAL_OK) eqn:?
      end ];
    run_driver; cbn [option_map]).

Ltac close_issues2 :=
  unfold issues, init_script, reset_script, dummy_cycles_script,
    write_enable_script, mem_ready_script;
  cbn [hal_status issued trace record_event];
  rewrite ?transactions_app; cbn [transactions app length firstn];
  rewrite <- ?app_assoc; cbn [app];
  repeat split; try reflexivity; try lia.

(** X9.  The memory reset issues reset-enable, reset-memory and the
    wait for the memory, cut right after the first transaction that
    fails, and returns success exactly when all three succeeded.  A
    failed reset instruction is reported with its translated status; a
    failed wait is translated twice and always comes out as the generic
    error. *)
Theorem qspi_reset_memory_unsafe_sequence {OK : PlatformOk P} (w : world) :
  0 <= HAL_OK /\ 0 <= HAL_BUSY /\ 0 <= HAL_TIMEOUT ->
  exists (r : Z) (w' : world),
    qspi_reset_memory_unsafe w = (r, w') /\
    match first_failure (hal_status w) (issued w) 3 with
    | None =>
        r = NO_ERROR /\
        transactions (trace w') = transactions (trace w) ++ reset_script
    | Some j =>
        r = (if Nat.eqb j 2 then ERR_GENERIC
             else hal_error_to_status (hal_status w (issued w + j)%nat)) /\
        r <> NO_ERROR /\
        transactions (trace w') =
          transactions (trace w) ++ firstn (S j) reset_script
    end.
Proof.
  intros (H0 & H1 & H2).
  pose proof err_generic_neg as Hg. pose proof no_error_zero as Hz.
  unfold qspi_reset_memory_unsafe, qspi_cmd,
    qspi_auto_polling_mem_ready_unsafe.
  run_driver. cbn [first_failure].
  branch_on_status w; norm_index; do 2 eexists;
    (split; [reflexivity|]); cbn [Nat.eqb];
    repeat split;
    try reflexivity;
    try (apply hal_error_twice_generic; try assumption;
         apply Z.eqb_neq; assumption);
    try (match goal with
         | H : (?s =? HAL_OK) = false |- _ <> NO_ERROR =>
             apply Z.eqb_neq in H;
             pose proof (hal_error_to_status_neg s H); lia
         end);
    try lia;
    try (rewrite hal_error_twice_generic
           by (assumption || (apply Z.eqb_neq; assumption)); lia);
    close_issues2.
Qed.


Lemma qspi_dummy_cycles_cfg_unsafe_run {OK : PlatformOk P} (w : world) :
  exists w',
    qspi_dummy_cycles_cfg_unsafe w =
      (outcome NO_ERROR (hal_status w) (issued w) 6, w') /\
    issues w w'
      (firstn (attempted (hal_status w) (issued w) 6)
         (dummy_cycles_script
            (MODIFY_REG (vcr_byte w) N25Q128A_VCR_NB_DUMMY
               dummy_cycles_field))).
Proof.
  unfold qspi_dummy_cycles_cfg_unsafe, HAL_QSPI_Receive,
    qspi_write_enable_unsafe, outcome, attempted.
  run_driver. cbn [first_failure].
  branch_on_status w; norm_index; eexists;
    (split; [reflexivity | close_issues2]).
Qed.


Lemma record_events_hal_status (evs : list event) (w : world) :
  hal_status (record_events evs w) = hal_status w.
Proof.
  revert w. induction evs as [|e evs IH]; intros w; [reflexivity|].
  change (record_events (e :: evs) w)
    with (record_events evs (record_event e w)).
  now rewrite IH.
Qed.

Lemma record_events_vcr_byte (evs : list event) (w : world) :
  vcr_byte (record_events evs w) = vcr_byte w.
Proof.
  revert w. induction evs as [|e evs IH]; intros w; [reflexivity|].
  change (record_events (e :: evs) w)
    with (record_events evs (record_event e w)).
  now rewrite IH.
Qed.

Lemma issues_then_kernel w w1 cs k :
  issues w w1 cs -> issues w (record_event (Kernel k) w1) cs.
Proof.
  intros I.
  pose proof (issues_trans _ _ _ _ _ I (issues_kernel w1 k)) as I'.
  now rewrite app_nil_r in I'.
Qed.

Lemma qspi_reset_memory_unsafe_run {OK : PlatformOk P} (w : world) :
  0 <= HAL_OK ->
  exists r w',
    qspi_reset_memory_unsafe w = (r, w') /\
    issues w w'
      (firstn (attempted (hal_status w) (issued w) 3) reset_script) /\
    match first_failure (hal_status w) (issued w) 3 with
    | None => r = NO_ERROR
    | Some _ => (r =? NO_ERROR) = false
    end.
Proof.
  intros H0.
  unfold qspi_reset_memory_unsafe, qspi_cmd,
    qspi_auto_polling_mem_ready_unsafe, attempted.
  run_driver. cbn [first_failure].
  branch_on_status w; norm_index; do 2 eexists;
    (split; [reflexivity | split; [close_issues2|]]);
    try reflexivity;
    first [ apply hal_error_twice_not_success; assumption
          | apply hal_error_not_success; assumption
          | match goal with
            | H : false = true |- _ => discriminate H
            | H : true = false |- _ => discriminate H
            end ].
Qed.

Lemma init_configure_run {OK : PlatformOk P} (w : world) :
  0 <= HAL_OK ->
  exists w',
    init_configure w = (NO_ERROR, w') /\
    issues w w'
      (firstn (attempted (hal_status w) (issued w) (3 + 6))
         (reset_script ++
          dummy_cycles_script
            (MODIFY_REG (vcr_byte w) N25Q128A_VCR_NB_DUMMY
               dummy_cycles_field))) /\
    registered (trace w') =
      registered (trace w) ++
      match first_failure (hal_status w) (issued w) (3 + 6) with
      | None => [qspi_flash_device]
      | Some _ => []
      end.
Proof.
  intros H0. unfold init_configure. unfold bind at 1.
  destruct (qspi_reset_memory_unsafe_run w H0) as (r & w3 & E & I & R).
  destruct (quiet_reset_memory w) as (e3 & Q3 & _ & G3).
  rewrite E in Q3. cbn [snd] in Q3. rewrite E.
  assert (Hreg3 : registered (trace w3) = registered (trace w)).
  { rewrite Q3, record_events_trace, registered_app, G3.
    apply app_nil_r. }
  assert (Hvcr3 : vcr_byte w3 = vcr_byte w)
    by (rewrite Q3; apply record_events_vcr_byte).
  rewrite first_failure_app.
  destruct (first_failure (hal_status w) (issued w) 3) as [j|] eqn:F3.
  - rewrite R. cbn [negb]. run_driver. eexists.
    split; [reflexivity|]. split.
    + apply issues_then_kernel.
      eapply issues_stop; [reflexivity | exact F3 | exact I].
    + cbn [trace record_event]. rewrite registered_app, Hreg3. reflexivity.
  - subst r. rewrite Z.eqb_refl. cbn [negb]. unfold bind at 1.
    assert (I3 : issues w w3 reset_script).
    { unfold attempted in I. rewrite F3 in I. exact I. }
    destruct (I3) as (Hs3 & Hi3 & _).
    change (length reset_script) with 3%nat in Hi3.
    destruct (qspi_dummy_cycles_cfg_unsafe_run w3) as (w4 & E4 & I4).
    destruct (quiet_dummy_cycles w3) as (e4 & Q4 & _ & G4).
    rewrite E4 in Q4. cbn [snd] in Q4. rewrite E4.
    assert (Hreg4 : registered (trace w4) = registered (trace w)).
    { rewrite Q4, record_events_trace, registered_app, G4, app_nil_r.
      exact Hreg3. }
    unfold outcome. rewrite Hs3, Hi3, Hvcr3 in *.
    assert (Iall : issues w w4
              (firstn (attempted (hal_status w) (issued w) (3 + 6))
                 (reset_script ++
                  dummy_cycles_script
                    (MODIFY_REG (vcr_byte w) N25Q128A_VCR_NB_DUMMY
                       dummy_cycles_field)))).
    { eapply issues_seq; [reflexivity | exact F3 | exact I3 | exact I4]. }
    destruct (first_failure (hal_status w) (issued w + 3) 6) as [i|] eqn:F6;
      cbn [option_map].
    + pose proof (first_failure_Some _ _ _ _ F6) as [_ Hne].
      apply Z.eqb_neq in Hne.
      rewrite hal_error_not_success by exact Hne.
      cbn [negb]. run_driver. eexists. split; [reflexivity|]. split.
      * apply issues_then_kernel. exact Iall.
      * cbn [trace record_event]. rewrite registered_app, Hreg4.
        reflexivity.
    + rewrite Z.eqb_refl. cbn [negb]. run_driver. eexists.
      split; [reflexivity|]. split.
      * do 2 apply issues_then_kernel. exact Iall.
      * cbn [trace record_event]. rewrite !registered_app, Hreg4.
        cbn [registered]. now rewrite app_nil_r.
Qed.

Lemma qspi_flash_init_configure :
  qspi_flash_init =
    (kernel (k_event_init cmd_event) ;;;
     kernel (k_event_init tx_event) ;;;
     kernel (k_event_init rx_event) ;;;
     kernel k_mutex_init ;;;
     result <- mutex_acquire ;;
     if negb (result =? NO_ERROR) then ret result else
     status <- hal hw_DeInit ;;
     if negb (status =? HAL_OK) then mutex_release ;;; ret NO_ERROR else
     status <- hal (hw_Init qspi_handle_Init) ;;
     if negb (status =? HAL_OK) then mutex_release ;;; ret NO_ERROR else
     init_configure).
Proof. reflexivity. Qed.

Lemma qspi_flash_init_run {OK : PlatformOk P} (w : world) :
  0 <= HAL_OK ->
  acquire_status w = NO_ERROR ->
  exists w',
    qspi_flash_init w = (NO_ERROR, w') /\
    issues w w'
      (firstn (attempted (hal_status w) (issued w) (2 + (3 + 6)))
         ([hw_DeInit; hw_Init qspi_handle_Init] ++
          reset_script ++
          dummy_cycles_script
            (MODIFY_REG (vcr_byte w) N25Q128A_VCR_NB_DUMMY
               dummy_cycles_field))) /\
    registered (trace w') =
      registered (trace w) ++
      match first_failure (hal_status w) (issued w) (2 + (3 + 6)) with
      | None => [qspi_flash_device]
      | Some _ => []
      end.
Proof.
  intros H0 Hacq. rewrite qspi_flash_init_configure.
  run_driver. rewrite Hacq, Z.eqb_refl. run_driver.
  assert (Hreg : forall t : list event,
            registered
              (((((trace w ++ [Kernel (k_event_init cmd_event)]) ++
                  [Kernel (k_event_init tx_event)]) ++
                 [Kernel (k_event_init rx_event)]) ++
                [Kernel k_mutex_init]) ++ [Kernel k_mutex_acquire]) ++
            registered t = registered (trace w) ++ registered t).
  { intros t. rewrite !registered_app. cbn [registered].
    now rewrite !app_nil_r. }
  destruct (hal_status w (issued w) =? HAL_OK) eqn:E0; run_driver.
  - destruct (hal_status w (S (issued w)) =? HAL_OK) eqn:E1; run_driver.
    + assert (F : first_failure (hal_status w) (issued w) 2 = None)
        by (cbn [first_failure]; now rewrite E0, E1).
      match goal with
      | |- context [init_configure ?x] => set (w2 := x) in *
      end.
      destruct (init_configure_run w2 H0) as (w' & E & I & R).
      unfold w2 in I, R.
      cbn [hal_status issued vcr_byte trace record_event] in I, R.
      rewrite E. exists w'. split; [reflexivity|]. split.
      * eapply (issues_seq w w2 w'); [reflexivity | exact F | | ].
        -- unfold w2. close_issues2.
        -- replace (issued w + 2)%nat with (S (S (issued w))) by lia.
           exact I.
      * rewrite R, (first_failure_app _ _ 2 (3 + 6)), F.
        replace (issued w + 2)%nat with (S (S (issued w))) by lia.
        rewrite !registered_app. cbn [registered].
        rewrite !app_nil_r.
        destruct (first_failure (hal_status w) (S (S (issued w))) (3 + 6));
          reflexivity.
    + assert (F : first_failure (hal_status w) (issued w) 2 = Some 1%nat)
        by (cbn [first_failure]; now rewrite E0, E1).
      eexists. split; [reflexivity|]. split.
      * eapply issues_stop; [reflexivity | exact F|].
        unfold attempted. rewrite F. close_issues2.
      * rewrite first_failure_app, F. cbn [trace record_event].
        rewrite !registered_app. cbn [registered]. now rewrite !app_nil_r.
  - assert (F : first_failure (hal_status w) (issued w) 2 = Some 0%nat)
      by (cbn [first_failure]; now rewrite E0).
    eexists. split; [reflexivity|]. split.
    + eapply issues_stop; [reflexivity | exact F|].
      unfold attempted. rewrite F. close_issues2.
    + rewrite first_failure_app, F. cbn [trace record_event].
      rewrite !registered_app. cbn [registered]. now rewrite !app_nil_r.
Qed.

(** X11.  Once the mutex is acquired, the initialisation walks through
    its eleven transactions (controller de-initialisation and
    initialisation, memory reset, dummy-cycle configuration) and stops
    right after the first one that fails.  The flash device is
    registered with the block-I/O layer exactly when all eleven
    succeeded; in every other case nothing is registered, and success is
    returned all the same. *)
Theorem qspi_flash_init_registers {OK : PlatformOk P} (w : world) :
  0 <= HAL_OK ->
  acquire_status w = NO_ERROR ->
  exists (value : Z) (w' : world),
    qspi_flash_init w = (NO_ERROR, w') /\
    match first_failure (hal_status w) (issued w) 11 with
    | None =>
        registered (trace w') = registered (trace w) ++ [qspi_flash_device] /\
        transactions (trace w') =
          transactions (trace w) ++ init_script value
    | Some j =>
        registered (trace w') = registered (trace w) /\
        transactions (trace w') =
          transactions (trace w) ++ firstn (S j) (init_script value)
    end.
Proof.
  intros H0 Hacq.
  destruct (qspi_flash_init_run w H0 Hacq) as (w' & E & (_ & _ & T) & R).
  eexists _, w'. split; [exact E|].
  unfold attempted in T.
  change (2 + (3 + 6))%nat with 11%nat in T, R.
  unfold init_script.
  destruct (first_failure (hal_status w) (issued w) 11).
  - rewrite app_nil_r in R. split; [exact R | exact T].
  - split; [exact R | exact T].
Qed.

Lemma releasing_leaf {A : Type} (a : A) : releasing (mutex_release ;;; ret a).
Proof. intros w. exists []. split; reflexivity. Qed.

Lemma releasing_bind {A C : Type} (m : M A) (k : A -> M C) :
  quiet m -> (forall a, releasing (k a)) -> releasing (bind m k).
Proof.
  intros Hm Hk w. unfold bind.
  destruct (Hm w) as (e1 & E1 & L1 & _). destruct (m w) as [a w1].
  cbn [snd] in E1. subst w1.
  destruct (Hk a (record_events e1 w)) as (e2 & E2 & L2).
  exists (e1 ++ e2).
  rewrite <- app_assoc, record_events_app, locking_app, L1, L2.
  split; [exact E2 | reflexivity].
Qed.

Lemma releasing_register {A : Type} (dev : bdev_t) (k : M A) :
  releasing k -> releasing (kernel (k_bio_register_device dev) ;;; k).
Proof.
  intros Hk w. unfold bind, kernel.
  destruct (Hk (record_event (Kernel (k_bio_register_device dev)) w))
    as (e & E & L).
  exists (Kernel (k_bio_register_device dev) :: e).
  split; [exact E | exact L].
Qed.

(** X12.  The initialisation logs the creation of its three events and
    of the mutex, then tries to take the mutex.  If that succeeds,
    everything it does afterwards happens with the mutex held and the
    last thing it does, on the success path and on each of the four
    failure paths, is to release it.  If it fails, the function stops
    there: no release, no access to the controller. *)
Theorem qspi_flash_init_locked (w : world) :
  (acquire_status w = NO_ERROR ->
   exists mid : list event,
     trace (snd (qspi_flash_init w)) =
       trace w ++ init_prologue ++
       Kernel k_mutex_acquire :: mid ++ [Kernel k_mutex_release] /\
     locking mid = []) /\
  (acquire_status w <> NO_ERROR ->
   trace (snd (qspi_flash_init w)) =
     trace w ++ init_prologue ++ [Kernel k_mutex_acquire]).
Proof.
  unfold qspi_flash_init.
  match goal with
  | |- context [bind (hal hw_DeInit) ?k] =>
      assert (Hbody : releasing (bind (hal hw_DeInit) k));
      [|set (body := bind (hal hw_DeInit) k) in *]
  end.
  { pose proof quiet_reset_memory. pose proof quiet_dummy_cycles.
    repeat first
      [ apply releasing_leaf
      | apply releasing_register
      | apply releasing_bind;
          [first [apply quiet_hal | assumption] | intro]
      | match goal with
        | |- releasing (if ?c then _ else _) => destruct c
        end ]. }
  unfold bind, kernel, mutex_acquire, ret, init_prologue.
  cbn [fst snd acquire_status record_event]. split.
  - intros ->. rewrite Z.eqb_refl. cbn [negb].
    match goal with
    | |- context [body ?w0] => destruct (Hbody w0) as (mid & E & Hl)
    end.
    exists mid. rewrite E, record_events_trace.
    cbn [trace record_event]. rewrite <- !app_assoc. cbn [app].
    split; [reflexivity | exact Hl].
  - intros Hne. destruct (Z.eqb_spec (acquire_status w) NO_ERROR);
      [contradiction|].
    cbn [negb snd trace record_event]. rewrite <- !app_assoc. reflexivity.
Qed.

(** X13.  A page write at an aligned address returns the translation of
    the first HAL status that is not [HAL_OK], whichever of its five
    transactions it comes from, and issues nothing after that
    transaction: a failed write-enable leaves the page untouched, a
    failed data phase is not followed by the wait for the memory. *)
Theorem qspi_write_page_unsafe_first_failure {OK : PlatformOk P}
  (addr data : Z) (w : world) :
  addr mod N25Q128A_PAGE_SIZE = 0 ->
  exists (r : Z) (w' : world),
    qspi_write_page_unsafe addr data w = (r, w') /\
    match first_failure (hal_status w) (issued w) 5 with
    | None =>
        r = N25Q128A_PAGE_SIZE /\
        transactions (trace w') =
          transactions (trace w) ++ page_program_script addr data
    | Some j =>
        r = hal_error_to_status (hal_status w (issued w + j)%nat) /\
        r < 0 /\
        transactions (trace w') =
          transactions (trace w) ++
          firstn (S j) (page_program_script addr data)
    end.
Proof.
  intros Hal.
  destruct (qspi_write_page_unsafe_run addr data w Hal)
    as (w' & E & _ & _ & T).
  do 2 eexists. split; [exact E|].
  unfold outcome, attempted in *.
  destruct (first_failure (hal_status w) (issued w) 5) as [j|] eqn:F.
  - pose proof (first_failure_Some _ _ _ _ F) as [_ Hne].
    pose proof (hal_error_to_status_neg _ Hne).
    repeat split; [assumption | exact T].
  - split; [reflexivity | exact T].
Qed.

End Properties.

(** * The driver on the N25Q128A *)

Lemma n25q128a_ok : PlatformOk n25q128a.
Proof.
  constructor; cbn; try reflexivity; try lia; repeat split; lia.
Defined.

#[local] Existing Instance n25q128a.
#[local] Existing Instance bio.
#[local] Existing Instance n25q128a_ok.

Lemma healthy_all_ok : all_ok healthy.
Proof. intros n _. reflexivity. Defined.

Lemma hal_error_to_status_closed_witness :
  PlatformOk n25q128a /\
  In (hal_error_to_status 7)
     [NO_ERROR; ERR_GENERIC; ERR_BUSY; ERR_TIMED_OUT] /\
  NoDup [NO_ERROR; ERR_GENERIC; ERR_BUSY; ERR_TIMED_OUT] /\
  hal_error_to_status HAL_OK = NO_ERROR /\
  hal_error_to_status HAL_ERROR = ERR_GENERIC /\
  hal_error_to_status HAL_BUSY = ERR_BUSY /\
  hal_error_to_status HAL_TIMEOUT = ERR_TIMED_OUT /\
  (~ In 7 [HAL_OK; HAL_ERROR; HAL_BUSY; HAL_TIMEOUT] ->
   hal_error_to_status 7 = ERR_GENERIC /\
   hal_error_to_status 7 <> NO_ERROR).
Proof.
  split; [exact n25q128a_ok|].
  exact (@hal_error_to_status_closed n25q128a n25q128a_ok 7).
Defined.

Lemma qspi_write_page_unsafe_misaligned_witness :
  PlatformOk n25q128a /\
  100 mod N25Q128A_PAGE_SIZE <> 0 /\
  qspi_write_page_unsafe 100 4096 healthy = (ERR_INVALID_ARGS, healthy).
Proof.
  split; [exact n25q128a_ok|].
  assert (H : 100 mod N25Q128A_PAGE_SIZE <> 0) by (vm_compute; discriminate).
  split; [exact H|].
  exact (@qspi_write_page_unsafe_misaligned n25q128a n25q128a_ok
           100 4096 healthy H).
Defined.

Lemma qspi_erase_bulk_nonzero_witness :
  4096 <> 0 /\
  qspi_erase 4096 BULK_ERASE_CMD healthy = (ERR_INVALID_ARGS, healthy).
Proof.
  assert (H : 4096 <> 0) by discriminate.
  split; [exact H|].
  exact (@qspi_erase_bulk_nonzero n25q128a 4096 healthy H).
Defined.

Lemma entry_points_trim_first_witness :
  bio_trim_range flash 16777216 10 = 0 /\
  bio_trim_block_range flash 65536 1 = 0 /\
  spiflash_bdev_read flash 4096 16777216 10 healthy = (0, healthy) /\
  spiflash_bdev_write_block flash 4096 65536 1 healthy = (0, healthy) /\
  spiflash_bdev_erase 1 flash 16777216 10 healthy = Some (0, healthy).
Proof.
  assert (H1 : bio_trim_range flash 16777216 10 = 0) by reflexivity.
  assert (H2 : bio_trim_block_range flash 65536 1 = 0) by reflexivity.
  destruct (@entry_points_trim_first n25q128a bio flash 4096 16777216 65536
              healthy 1) as (R & W & E & _).
  exact (conj H1 (conj H2 (conj (R 10 H1) (conj (W 1 H2) (E 10 H1))))).
Defined.

Lemma qspi_write_page_unsafe_sequence_witness :
  PlatformOk n25q128a /\
  512 mod N25Q128A_PAGE_SIZE = 0 /\
  exists (enable poll_latch program poll_busy : QSPI_CommandTypeDef)
         (latch busy : QSPI_AutoPollingTypeDef) (r : Z) (w' : world),
    (Instruction enable = WRITE_ENABLE_CMD /\
     Instruction poll_latch = READ_STATUS_REG_CMD /\
     Mask latch = N25Q128A_SR_WREN /\ Match latch = N25Q128A_SR_WREN) /\
    (Instruction program = EXT_QUAD_IN_FAST_PROG_CMD /\
     AddressSize program = Some QSPI_ADDRESS_24_BITS /\
     Address program = Some 512 /\
     DataMode program = QSPI_DATA_4_LINES /\
     NbData program = Some N25Q128A_PAGE_SIZE) /\
    (Instruction poll_busy = READ_STATUS_REG_CMD /\
     Mask busy = N25Q128A_SR_WIP /\ Match busy = 0) /\
    let script :=
      [ hw_Command enable HAL_QPSI_TIMEOUT_DEFAULT_VALUE;
        hw_AutoPolling poll_latch latch HAL_QPSI_TIMEOUT_DEFAULT_VALUE;
        hw_Command program HAL_QPSI_TIMEOUT_DEFAULT_VALUE;
        hw_Transmit_IT 4096;
        hw_AutoPolling_IT poll_busy busy ] in
    qspi_write_page_unsafe 512 4096 healthy = (r, w') /\
    (exists k : nat,
        transactions (trace w') =
          transactions (trace healthy) ++ firstn k script) /\
    (all_ok healthy ->
     r = N25Q128A_PAGE_SIZE /\
     transactions (trace w') = transactions (trace healthy) ++ script) /\
    (r = N25Q128A_PAGE_SIZE /\
     transactions (trace w') = transactions (trace healthy) ++ script \/
     r < 0).
Proof.
  split; [exact n25q128a_ok|].
  assert (H : 512 mod N25Q128A_PAGE_SIZE = 0) by reflexivity.
  split; [exact H|].
  exact (@qspi_write_page_unsafe_sequence n25q128a n25q128a_ok
           512 4096 healthy H).
Defined.

Lemma spiflash_bdev_write_block_pages_witness :
  PlatformOk n25q128a /\
  0 <= 3 /\
  0 <= bio_trim_block_range flash 3 2 /\
  3 + bio_trim_block_range flash 3 2
    <= N25Q128A_FLASH_SIZE / N25Q128A_PAGE_SIZE /\
  exists (r : Z) (w' : world),
    spiflash_bdev_write_block flash 4096 3 2 healthy = (r, w') /\
    let script :=
      block_program_script 3 4096
        (Z.to_nat (bio_trim_block_range flash 3 2)) in
    match first_failure (hal_status healthy) (issued healthy)
            (5 * Z.to_nat (bio_trim_block_range flash 3 2)) with
    | None =>
        r = bio_trim_block_range flash 3 2 * N25Q128A_PAGE_SIZE /\
        transactions (trace w') = transactions (trace healthy) ++ script
    | Some j =>
        r = hal_error_to_status
              (hal_status healthy (issued healthy + j)%nat) /\
        r < 0 /\
        transactions (trace w') =
          transactions (trace healthy) ++ firstn (S j) script
    end.
Proof.
  split; [exact n25q128a_ok|].
  assert (H1 : 0 <= 3) by lia.
  assert (H2 : 0 <= bio_trim_block_range flash 3 2)
    by (vm_compute; discriminate).
  assert (H3 : 3 + bio_trim_block_range flash 3 2
               <= N25Q128A_FLASH_SIZE / N25Q128A_PAGE_SIZE)
    by (vm_compute; discriminate).
  split; [exact H1|]. split; [exact H2|]. split; [exact H3|].
  exact (@spiflash_bdev_write_block_pages n25q128a bio n25q128a_ok
           flash 4096 3 2 healthy H1 H2 H3).
Defined.

Lemma spiflash_bdev_erase_granularity_witness :
  PlatformOk n25q128a /\
  0 < bio_trim_range flash 0 69632 /\
  0 <= 0 /\
  0 + bio_trim_range flash 0 69632 <= N25Q128A_FLASH_SIZE /\
  (length (erase_plan 0 (bio_trim_range flash 0 69632)) < 3)%nat /\
  all_ok healthy /\
  exists (r : Z) (w' : world),
    spiflash_bdev_erase 3 flash 0 69632 healthy = Some (r, w') /\
    transactions (trace w') =
      transactions (trace healthy) ++
      erase_chunk_script (SECTOR_ERASE_CMD, 0) ++
      erase_chunk_script (SUBSECTOR_ERASE_CMD, N25Q128A_SECTOR_SIZE).
Proof.
  split; [exact n25q128a_ok|].
  assert (H1 : 0 < bio_trim_range flash 0 69632) by reflexivity.
  assert (H2 : 0 <= 0) by lia.
  assert (H3 : 0 + bio_trim_range flash 0 69632 <= N25Q128A_FLASH_SIZE)
    by (vm_compute; discriminate).
  assert (H4 : (length (erase_plan 0 (bio_trim_range flash 0 69632)) < 3)%nat)
    by (vm_compute; lia).
  split; [exact H1|]. split; [exact H2|]. split; [exact H3|].
  split; [exact H4|]. split; [exact healthy_all_ok|].
  destruct (@spiflash_bdev_erase_granularity n25q128a bio n25q128a_ok
              3 flash 0 69632 healthy H1 H2 H3 H4)
    as (r & w' & E & _ & T).
  exists r, w'. split; [exact E|].
  apply (proj2 (proj2 (proj2 (T healthy_all_ok))));
    [reflexivity | reflexivity | reflexivity | reflexivity].
Defined.

Lemma spiflash_bdev_erase_rounds_up_witness :
  PlatformOk n25q128a /\
  0 < bio_trim_range flash 0 1 /\
  0 <= 0 /\
  0 + bio_trim_range flash 0 1 <= N25Q128A_FLASH_SIZE /\
  ~ (0 = 0 /\ bio_trim_range flash 0 1 = N25Q128A_FLASH_SIZE) /\
  (length (erase_plan 0 (bio_trim_range flash 0 1)) < 2)%nat /\
  exists (r : Z) (w' : world),
    spiflash_bdev_erase 2 flash 0 1 healthy = Some (r, w') /\
    (r < 0 \/
     exists a b : Z,
       0 <= a /\ 0 <= b /\
       r = a * N25Q128A_SECTOR_SIZE + b * N25Q128A_SUBSECTOR_SIZE /\
       bio_trim_range flash 0 1 <= r
         < bio_trim_range flash 0 1 + N25Q128A_SUBSECTOR_SIZE) /\
    (all_ok healthy -> 0 <= r).
Proof.
  split; [exact n25q128a_ok|].
  assert (H1 : 0 < bio_trim_range flash 0 1) by reflexivity.
  assert (H2 : 0 <= 0) by lia.
  assert (H3 : 0 + bio_trim_range flash 0 1 <= N25Q128A_FLASH_SIZE)
    by (vm_compute; discriminate).
  assert (H4 : ~ (0 = 0 /\ bio_trim_range flash 0 1 = N25Q128A_FLASH_SIZE))
    by (intros [_ H]; vm_compute in H; discriminate).
  assert (H5 : (length (erase_plan 0 (bio_trim_range flash 0 1)) < 2)%nat)
    by (vm_compute; lia).
  split; [exact H1|]. split; [exact H2|]. split; [exact H3|].
  split; [exact H4|]. split; [exact H5|].
  exact (@spiflash_bdev_erase_rounds_up n25q128a bio n25q128a_ok
           2 flash 0 1 healthy H1 H2 H3 H4 H5).
Defined.

(** The byte count returned can exceed the length asked for: erasing
    one byte erases, and reports, a whole subsector. *)
Example erase_one_byte :
  option_map fst (spiflash_bdev_erase 2 flash 0 1 healthy) = Some 4096.
Proof. reflexivity. Qed.

Lemma qspi_flash_init_status_witness :
  acquire_status healthy = NO_ERROR /\
  fst (qspi_flash_init healthy) = NO_ERROR /\
  acquire_status mutex_refused <> NO_ERROR /\
  fst (qspi_flash_init mutex_refused) = acquire_status mutex_refused.
Proof.
  assert (H1 : acquire_status healthy = NO_ERROR) by reflexivity.
  assert (H2 : acquire_status mutex_refused <> NO_ERROR) by discriminate.
  exact (conj H1
           (conj (proj1 (@qspi_flash_init_status n25q128a healthy) H1)
              (conj H2
                 (proj1 (proj2 (@qspi_flash_init_status n25q128a
                                  mutex_refused) H2))))).
Defined.

(** Hardware failures change neither fact: a page write that times out
    in the second page stops there, an erase whose sector command is
    refused stops there, and an initialisation whose controller
    de-initialisation fails still reports success and registers
    nothing. *)
Example write_block_stops_at_failure :
  let (r, w') :=
    spiflash_bdev_write_block flash 4096 3 2 (failing_at 7 HAL_TIMEOUT) in
  r = ERR_TIMED_OUT /\ length (transactions (trace w')) = 8%nat.
Proof. vm_compute. split; reflexivity. Qed.

Example erase_stops_at_failure :
  option_map
    (fun rw => (fst rw, length (transactions (trace (snd rw)))))
    (spiflash_bdev_erase 3 flash 0 131072 (failing_at 2 HAL_ERROR)) =
  Some (ERR_GENERIC, 3%nat).
Proof. vm_compute. reflexivity. Qed.

Example init_hides_controller_failure :
  let (r, w') := qspi_flash_init (failing_at 0 HAL_ERROR) in
  r = NO_ERROR /\ registered (trace w') = [] /\
  transactions (trace w') = [hw_DeInit].
Proof. vm_compute. repeat split; reflexivity. Qed.

(** C9 as stated fails: when the kernel refuses the mutex the
    initialisation returns that status, not success. *)
Lemma qspi_flash_init_reports_mutex_failure :
  ~ (forall w : world, fst (qspi_flash_init w) = NO_ERROR).
Proof.
  intros H. specialize (H mutex_refused). vm_compute in H. discriminate.
Qed.

(** C8.  After a successful initialisation one device is registered.
    Its block size is the page size, its block count the flash size
    divided by the page size, its erase geometry starts at 0 and spans
    the flash size, and its fill byte is 0xFF.  The erase shift is the
    base-2 logarithm of the subsector size; the erase size is given the
    same logarithm, 12, and is not the subsector size, 4096. *)
Theorem qspi_flash_init_descriptor :
  exists (dev : bdev_t) (g : bio_erase_geometry_info_t),
    fst (qspi_flash_init healthy) = NO_ERROR /\
    registered (trace (snd (qspi_flash_init healthy))) = [dev] /\
    geometry dev = [g] /\
    block_size dev = N25Q128A_PAGE_SIZE /\
    block_count dev = N25Q128A_FLASH_SIZE / N25Q128A_PAGE_SIZE /\
    start g = 0 /\
    size g = N25Q128A_FLASH_SIZE /\
    erase_byte dev = 255 /\
    erase_shift g = log2_uint N25Q128A_SUBSECTOR_SIZE /\
    erase_size g = log2_uint N25Q128A_SUBSECTOR_SIZE /\
    erase_size g = 12 /\
    N25Q128A_SUBSECTOR_SIZE = 4096 /\
    erase_size g <> N25Q128A_SUBSECTOR_SIZE.
Proof.
  do 2 eexists.
  split; [reflexivity|]. split; [vm_compute; reflexivity|].
  split; [reflexivity|].
  repeat (split; [reflexivity|]). discriminate.
Qed.

(** ** Further properties on the N25Q128A *)

Lemma n25q128a_statuses_fit :
  - 2 ^ 31 <= ERR_GENERIC /\ - 2 ^ 31 <= ERR_BUSY /\
  - 2 ^ 31 <= ERR_TIMED_OUT.
Proof. repeat split; discriminate. Defined.

Lemma n25q128a_hal_nonneg : 0 <= HAL_OK /\ 0 <= HAL_BUSY /\ 0 <= HAL_TIMEOUT.
Proof. repeat split; discriminate. Defined.

Lemma spiflash_bdev_read_single_transaction_witness :
  PlatformOk n25q128a /\
  0 < bio_trim_range flash 1000 16 < 2 ^ 31 /\
  (- 2 ^ 31 <= ERR_GENERIC /\ - 2 ^ 31 <= ERR_BUSY /\
   - 2 ^ 31 <= ERR_TIMED_OUT) /\
  exists (r : Z) (w' : world) (mid : list event),
    spiflash_bdev_read flash 4096 1000 16 (failing_at 1 HAL_BUSY) = (r, w') /\
    locked_window (failing_at 1 HAL_BUSY) w' mid /\
    match first_failure (hal_status (failing_at 1 HAL_BUSY))
            (issued (failing_at 1 HAL_BUSY)) 2 with
    | None =>
        r = bio_trim_range flash 1000 16 /\
        transactions mid =
          read_script (u32 1000) (bio_trim_range flash 1000 16) 4096
    | Some j =>
        r = hal_error_to_status
              (hal_status (failing_at 1 HAL_BUSY)
                 (issued (failing_at 1 HAL_BUSY) + j)%nat) /\
        r < 0 /\
        transactions mid =
          firstn (S j)
            (read_script (u32 1000) (bio_trim_range flash 1000 16) 4096)
    end.
Proof.
  split; [exact n25q128a_ok|].
  assert (H1 : 0 < bio_trim_range flash 1000 16 < 2 ^ 31)
    by (split; reflexivity).
  split; [exact H1|]. split; [exact n25q128a_statuses_fit|].
  exact (@spiflash_bdev_read_single_transaction n25q128a bio n25q128a_ok
           flash 4096 1000 16 (failing_at 1 HAL_BUSY) H1
           n25q128a_statuses_fit).
Defined.

Lemma spiflash_bdev_read_block_bytes_witness :
  0 <= block_shift flash /\
  0 <= 3 /\
  0 < bio_trim_block_range flash 3 2 /\
  (3 + bio_trim_block_range flash 3 2) * 2 ^ block_shift flash < 2 ^ 31 /\
  bio_trim_range flash (3 * 2 ^ block_shift flash)
    (bio_trim_block_range flash 3 2 * 2 ^ block_shift flash) =
    bio_trim_block_range flash 3 2 * 2 ^ block_shift flash /\
  all_ok healthy /\
  exists (w' : world) (mid : list event),
    spiflash_bdev_read_block flash 4096 3 2 healthy =
      (bio_trim_block_range flash 3 2 * 2 ^ block_shift flash, w') /\
    locked_window healthy w' mid /\
    transactions mid =
      read_script (3 * 2 ^ block_shift flash)
        (bio_trim_block_range flash 3 2 * 2 ^ block_shift flash) 4096.
Proof.
  assert (H1 : 0 <= block_shift flash) by discriminate.
  assert (H2 : 0 <= 3) by discriminate.
  assert (H3 : 0 < bio_trim_block_range flash 3 2) by reflexivity.
  assert (H4 : (3 + bio_trim_block_range flash 3 2) * 2 ^ block_shift flash
               < 2 ^ 31) by reflexivity.
  assert (H5 : bio_trim_range flash (3 * 2 ^ block_shift flash)
                 (bio_trim_block_range flash 3 2 * 2 ^ block_shift flash) =
               bio_trim_block_range flash 3 2 * 2 ^ block_shift flash)
    by reflexivity.
  split; [exact H1|]. split; [exact H2|]. split; [exact H3|].
  split; [exact H4|]. split; [exact H5|]. split; [exact healthy_all_ok|].
  exact (@spiflash_bdev_read_block_bytes n25q128a bio flash 4096 3 2 healthy
           H1 H2 H3 H4 H5 healthy_all_ok).
Defined.

Lemma spiflash_bdev_write_block_locked_witness :
  bio_trim_block_range flash 3 2 <> 0 /\
  exists mid : list event,
    locked_window (failing_at 7 HAL_TIMEOUT)
      (snd (spiflash_bdev_write_block flash 4096 3 2
              (failing_at 7 HAL_TIMEOUT))) mid.
Proof.
  assert (H : bio_trim_block_range flash 3 2 <> 0) by discriminate.
  split; [exact H|].
  exact (@spiflash_bdev_write_block_locked n25q128a bio flash 4096 3 2
           (failing_at 7 HAL_TIMEOUT) H).
Defined.

Lemma spiflash_bdev_erase_locked_witness :
  PlatformOk n25q128a /\
  0 < bio_trim_range flash 0 131072 /\
  0 <= 0 /\
  0 + bio_trim_range flash 0 131072 <= N25Q128A_FLASH_SIZE /\
  (length (erase_plan 0 (bio_trim_range flash 0 131072)) < 3)%nat /\
  exists (r : Z) (w' : world) (mid : list event),
    spiflash_bdev_erase 3 flash 0 131072 (failing_at 6 HAL_ERROR) =
      Some (r, w') /\
    locked_window (failing_at 6 HAL_ERROR) w' mid.
Proof.
  split; [exact n25q128a_ok|].
  assert (H1 : 0 < bio_trim_range flash 0 131072) by reflexivity.
  assert (H2 : 0 <= 0) by discriminate.
  assert (H3 : 0 + bio_trim_range flash 0 131072 <= N25Q128A_FLASH_SIZE)
    by discriminate.
  assert (H4 : (length (erase_plan 0 (bio_trim_range flash 0 131072))
                < 3)%nat) by (vm_compute; lia).
  split; [exact H1|]. split; [exact H2|]. split; [exact H3|].
  split; [exact H4|].
  exact (@spiflash_bdev_erase_locked n25q128a bio n25q128a_ok
           3 flash 0 131072 (failing_at 6 HAL_ERROR) H1 H2 H3 H4).
Defined.

Lemma qspi_erase_unknown_instruction_witness :
  66 <> SUBSECTOR_ERASE_CMD /\
  66 <> SECTOR_ERASE_CMD /\
  66 <> BULK_ERASE_CMD /\
  qspi_erase 4096 66 healthy = (ERR_INVALID_ARGS, healthy).
Proof.
  assert (H1 : 66 <> SUBSECTOR_ERASE_CMD) by discriminate.
  assert (H2 : 66 <> SECTOR_ERASE_CMD) by discriminate.
  assert (H3 : 66 <> BULK_ERASE_CMD) by discriminate.
  split; [exact H1|]. split; [exact H2|]. split; [exact H3|].
  exact (@qspi_erase_unknown_instruction n25q128a 4096 66 healthy H1 H2 H3).
Defined.

Lemma qspi_erase_failure_codes_witness :
  PlatformOk n25q128a /\
  erase_unit SECTOR_ERASE_CMD N25Q128A_SECTOR_SIZE /\
  (SECTOR_ERASE_CMD = BULK_ERASE_CMD -> 65536 = 0) /\
  exists (r : Z) (w' : world),
    qspi_erase 65536 SECTOR_ERASE_CMD (failing_at 2 HAL_BUSY) = (r, w') /\
    match first_failure (hal_status (failing_at 2 HAL_BUSY))
            (issued (failing_at 2 HAL_BUSY)) 4 with
    | None =>
        r = N25Q128A_SECTOR_SIZE /\
        transactions (trace w') =
          transactions (trace (failing_at 2 HAL_BUSY)) ++
          erase_chunk_script (SECTOR_ERASE_CMD, 65536)
    | Some j =>
        r = (if Nat.eqb j 2 then ERR_GENERIC
             else hal_error_to_status
                    (hal_status (failing_at 2 HAL_BUSY)
                       (issued (failing_at 2 HAL_BUSY) + j)%nat)) /\
        r < 0 /\
        transactions (trace w') =
          transactions (trace (failing_at 2 HAL_BUSY)) ++
          firstn (S j) (erase_chunk_script (SECTOR_ERASE_CMD, 65536))
    end.
Proof.
  split; [exact n25q128a_ok|].
  assert (H1 : erase_unit SECTOR_ERASE_CMD N25Q128A_SECTOR_SIZE)
    by (right; left; split; reflexivity).
  assert (H2 : SECTOR_ERASE_CMD = BULK_ERASE_CMD -> 65536 = 0)
    by discriminate.
  split; [exact H1|]. split; [exact H2|].
  exact (@qspi_erase_failure_codes n25q128a n25q128a_ok
           65536 SECTOR_ERASE_CMD N25Q128A_SECTOR_SIZE
           (failing_at 2 HAL_BUSY) H1 H2).
Defined.

Lemma spiflash_bdev_erase_first_failure_witness :
  PlatformOk n25q128a /\
  0 < bio_trim_range flash 0 131072 /\
  0 <= 0 /\
  0 + bio_trim_range flash 0 131072 <= N25Q128A_FLASH_SIZE /\
  (length (erase_plan 0 (bio_trim_range flash 0 131072)) < 3)%nat /\
  exists (r : Z) (w' : world),
    spiflash_bdev_erase 3 flash 0 131072 (failing_at 6 HAL_ERROR) =
      Some (r, w') /\
    let script :=
      flat_map erase_chunk_script
        (erase_plan 0 (bio_trim_range flash 0 131072)) in
    match first_failure (hal_status (failing_at 6 HAL_ERROR))
            (issued (failing_at 6 HAL_ERROR)) (length script) with
    | None =>
        r = plan_bytes 0 (bio_trim_range flash 0 131072) /\
        bio_trim_range flash 0 131072 <= r /\
        (0 = 0 -> bio_trim_range flash 0 131072 = N25Q128A_FLASH_SIZE ->
         r = N25Q128A_FLASH_SIZE) /\
        transactions (trace w') =
          transactions (trace (failing_at 6 HAL_ERROR)) ++ script
    | Some j =>
        r < 0 /\
        transactions (trace w') =
          transactions (trace (failing_at 6 HAL_ERROR)) ++
          firstn (S j) script
    end.
Proof.
  split; [exact n25q128a_ok|].
  assert (H1 : 0 < bio_trim_range flash 0 131072) by reflexivity.
  assert (H2 : 0 <= 0) by discriminate.
  assert (H3 : 0 + bio_trim_range flash 0 131072 <= N25Q128A_FLASH_SIZE)
    by discriminate.
  assert (H4 : (length (erase_plan 0 (bio_trim_range flash 0 131072))
                < 3)%nat) by (vm_compute; lia).
  split; [exact H1|]. split; [exact H2|]. split; [exact H3|].
  split; [exact H4|].
  exact (@spiflash_bdev_erase_first_failure n25q128a bio n25q128a_ok
           3 flash 0 131072 (failing_at 6 HAL_ERROR) H1 H2 H3 H4).
Defined.

Lemma qspi_write_enable_unsafe_handshake_witness :
  PlatformOk n25q128a /\
  exists (r : Z) (w' : world),
    qspi_write_enable_unsafe (failing_at 1 HAL_TIMEOUT) = (r, w') /\
    match first_failure (hal_status (failing_at 1 HAL_TIMEOUT))
            (issued (failing_at 1 HAL_TIMEOUT)) 2 with
    | None =>
        r = NO_ERROR /\
        transactions (trace w') =
          transactions (trace (failing_at 1 HAL_TIMEOUT)) ++
          write_enable_script
    | Some j =>
        r = hal_error_to_status
              (hal_status (failing_at 1 HAL_TIMEOUT)
                 (issued (failing_at 1 HAL_TIMEOUT) + j)%nat) /\
        r <> NO_ERROR /\
        transactions (trace w') =
          transactions (trace (failing_at 1 HAL_TIMEOUT)) ++
          firstn (S j) write_enable_script
    end.
Proof.
  split; [exact n25q128a_ok|].
  exact (@qspi_write_enable_unsafe_handshake n25q128a n25q128a_ok
           (failing_at 1 HAL_TIMEOUT)).
Defined.

Lemma qspi_reset_memory_unsafe_sequence_witness :
  PlatformOk n25q128a /\
  (0 <= HAL_OK /\ 0 <= HAL_BUSY /\ 0 <= HAL_TIMEOUT) /\
  exists (r : Z) (w' : world),
    qspi_reset_memory_unsafe (failing_at 2 HAL_TIMEOUT) = (r, w') /\
    match first_failure (hal_status (failing_at 2 HAL_TIMEOUT))
            (issued (failing_at 2 HAL_TIMEOUT)) 3 with
    | None =>
        r = NO_ERROR /\
        transactions (trace w') =
          transactions (trace (failing_at 2 HAL_TIMEOUT)) ++ reset_script
    | Some j =>
        r = (if Nat.eqb j 2 then ERR_GENERIC
             else hal_error_to_status
                    (hal_status (failing_at 2 HAL_TIMEOUT)
                       (issued (failing_at 2 HAL_TIMEOUT) + j)%nat)) /\
        r <> NO_ERROR /\
        transactions (trace w') =
          transactions (trace (failing_at 2 HAL_TIMEOUT)) ++
          firstn (S j) reset_script
    end.
Proof.
  split; [exact n25q128a_ok|]. split; [exact n25q128a_hal_nonneg|].
  exact (@qspi_reset_memory_unsafe_sequence n25q128a n25q128a_ok
           (failing_at 2 HAL_TIMEOUT) n25q128a_hal_nonneg).
Defined.


Lemma qspi_flash_init_registers_witness :
  PlatformOk n25q128a /\
  0 <= HAL_OK /\
  acquire_status healthy = NO_ERROR /\
  exists (value : Z) (w' : world),
    qspi_flash_init healthy = (NO_ERROR, w') /\
    match first_failure (hal_status healthy) (issued healthy) 11 with
    | None =>
        registered (trace w') =
          registered (trace healthy) ++ [qspi_flash_device] /\
        transactions (trace w') =
          transactions (trace healthy) ++ init_script value
    | Some j =>
        registered (trace w') = registered (trace healthy) /\
        transactions (trace w') =
          transactions (trace healthy) ++ firstn (S j) (init_script value)
    end.
Proof.
  split; [exact n25q128a_ok|].
  assert (H1 : 0 <= HAL_OK) by discriminate.
  assert (H2 : acquire_status healthy = NO_ERROR) by reflexivity.
  split; [exact H1|]. split; [exact H2|].
  exact (@qspi_flash_init_registers n25q128a n25q128a_ok healthy H1 H2).
Defined.

Lemma qspi_flash_init_locked_witness :
  acquire_status (failing_at 3 HAL_ERROR) = NO_ERROR /\
  (exists mid : list event,
     trace (snd (qspi_flash_init (failing_at 3 HAL_ERROR))) =
       trace (failing_at 3 HAL_ERROR) ++ init_prologue ++
       Kernel k_mutex_acquire :: mid ++ [Kernel k_mutex_release] /\
     locking mid = []) /\
  acquire_status mutex_refused <> NO_ERROR /\
  trace (snd (qspi_flash_init mutex_refused)) =
    trace mutex_refused ++ init_prologue ++ [Kernel k_mutex_acquire].
Proof.
  assert (H1 : acquire_status (failing_at 3 HAL_ERROR) = NO_ERROR)
    by reflexivity.
  assert (H2 : acquire_status mutex_refused <> NO_ERROR) by discriminate.
  exact (conj H1
           (conj (proj1 (@qspi_flash_init_locked n25q128a
                           (failing_at 3 HAL_ERROR)) H1)
              (conj H2
                 (proj2 (@qspi_flash_init_locked n25q128a mutex_refused)
                    H2)))).
Defined.

Lemma qspi_write_page_unsafe_first_failure_witness :
  PlatformOk n25q128a /\
  512 mod N25Q128A_PAGE_SIZE = 0 /\
  exists (r : Z) (w' : world),
    qspi_write_page_unsafe 512 4096 (failing_at 3 HAL_BUSY) = (r, w') /\
    match first_failure (hal_status (failing_at 3 HAL_BUSY))
            (issued (failing_at 3 HAL_BUSY)) 5 with
    | None =>
        r = N25Q128A_PAGE_SIZE /\
        transactions (trace w') =
          transactions (trace (failing_at 3 HAL_BUSY)) ++
          page_program_script 512 4096
    | Some j =>
        r = hal_error_to_status
              (hal_status (failing_at 3 HAL_BUSY)
                 (issued (failing_at 3 HAL_BUSY) + j)%nat) /\
        r < 0 /\
        transactions (trace w') =
          transactions (trace (failing_at 3 HAL_BUSY)) ++
          firstn (S j) (page_program_script 512 4096)
    end.
Proof.
  split; [exact n25q128a_ok|].
  assert (H : 512 mod N25Q128A_PAGE_SIZE = 0) by reflexivity.
  split; [exact H|].
  exact (@qspi_write_page_unsafe_first_failure n25q128a n25q128a_ok
           512 4096 (failing_at 3 HAL_BUSY) H).
Defined.
